(** * A shallow embedding of paramspy

    The modules below follow the repository layout:
    - [Fetcher]    : [core/fetcher.py] ([fetch_wayback_urls]) together with
                     the part of Python's [urllib.parse.urlsplit] it relies on;
    - [Decorators] : [utils/decorators.py] ([retry_on_failure]);
    - [Cache]      : [paramspy/core/cache.py] ([ParamCache]) over the SQLite
                     table [params];
    - [Parser]     : [paramspy/core/parser.py], which is not part of the
                     sources, modelled from the specification;
    - [Cli]        : [paramspy/cli.py] ([_load_builtin_params], [scan],
                     [cache_status], [cache_clear]).

    Python strings are modelled as Rocq [string]s, i.e. ASCII text; the
    non-ASCII branches of the standard library are outside the model. *)

From Stdlib Require Import ZArith QArith Qround Lia Lqa.
From stdpp Require Import base list gmap sets strings.
From Stdlib Require Import String Ascii.

Open Scope list_scope.
Set Warnings "-register-all".


(** ** Python exceptions that occur in the code paths we model. *)
Inductive exn :=
  | ConnectError                  (* httpx.ConnectError *)
  | HttpxTimeout                  (* httpx.TimeoutException and subclasses *)
  | HTTPStatusError (code : Z)    (* httpx.HTTPStatusError *)
  | OtherHttpxError               (* any other httpx transport error *)
  | TimeoutError                  (* Python's builtin TimeoutError *)
  | JSONDecodeError
  | UnicodeDecodeError
  | FileNotFoundError
  | IsADirectoryError
  | PermissionError
  | NotADirectoryError
  | OSError                       (* any other [OSError] of [open] *)
  | RecursionError
  | TypeError
  | IndexError
  | KeyError
  | AttributeError
  | ValueError
  | OtherException.

(** Result of a Python computation that may raise. *)
Inductive res (A : Type) :=
  | Ok (a : A)
  | Raise (e : exn).
Arguments Ok {A} a.
Arguments Raise {A} e.

(** ** String helpers with Python semantics *)
Module Py.

Definition chars (s : string) : list ascii := list_ascii_of_string s.
Definition of_chars (l : list ascii) : string := string_of_list_ascii l.

(** [s.endswith(suf)] *)
Definition endswith (s suf : string) : bool :=
  let n := String.length s in
  let m := String.length suf in
  (m <=? n)%nat && String.eqb (substring (n - m) m s) suf.

Definition in_chars (c : ascii) (cs : string) : bool :=
  existsb (fun d => Ascii.eqb c d) (chars cs).

Definition is_alpha (c : ascii) : bool :=
  let n := nat_of_ascii c in
  ((65 <=? n) && (n <=? 90)) || ((97 <=? n) && (n <=? 122)).

Definition is_digit (c : ascii) : bool :=
  let n := nat_of_ascii c in (48 <=? n) && (n <=? 57).

Definition is_upper (c : ascii) : bool :=
  let n := nat_of_ascii c in (65 <=? n) && (n <=? 90).

(** [str.lower()] on ASCII text *)
Definition lower_char (c : ascii) : ascii :=
  let n := nat_of_ascii c in
  if (65 <=? n) && (n <=? 90) then ascii_of_nat (n + 32) else c.

Definition lower (s : string) : string := of_chars (map lower_char (chars s)).

(** [str.strip()] with no argument: the ASCII whitespace of Python,
    i.e. \t \n \v \f \r, the separators \x1c-\x1f and space. *)
Definition is_py_space (c : ascii) : bool :=
  let n := nat_of_ascii c in
  ((9 <=? n) && (n <=? 13)) || ((28 <=? n) && (n <=? 32)).

Fixpoint drop_while (p : ascii -> bool) (l : list ascii) : list ascii :=
  match l with
  | [] => []
  | c :: r => if p c then drop_while p r else l
  end.

Definition strip (s : string) : string :=
  of_chars (rev (drop_while is_py_space (rev (drop_while is_py_space (chars s))))).

(** [s.replace(old, new)] for a non-empty [old]: left to right,
    non-overlapping occurrences. *)
Fixpoint replace_aux (fuel : nat) (old new : list ascii) (s : list ascii)
    : list ascii :=
  match fuel with
  | O => s
  | S fuel' =>
      match s with
      | [] => []
      | c :: r =>
          if decide (firstn (List.length old) s = old)
          then new ++ replace_aux fuel' old new (skipn (List.length old) s)
          else c :: replace_aux fuel' old new r
      end
  end.

Definition replace (s old new : string) : string :=
  of_chars (replace_aux (String.length s) (chars old) (chars new) (chars s)).

End Py.

(** ** [urllib.parse.urlsplit] (the [netloc] component) *)
Module UrlParse.
Import Py.

(** [_WHATWG_C0_CONTROL_OR_SPACE]: code points 0x00 to 0x20. *)
Definition is_c0_or_space (c : ascii) : bool := (nat_of_ascii c <=? 32)%nat.

(** [_UNSAFE_URL_BYTES_TO_REMOVE = ['\t', '\r', '\n']] *)
Definition is_unsafe (c : ascii) : bool :=
  let n := nat_of_ascii c in (n =? 9)%nat || (n =? 13)%nat || (n =? 10)%nat.

(** [scheme_chars]: letters, digits and "+-." *)
Definition is_scheme_char (c : ascii) : bool :=
  is_alpha c || is_digit c || in_chars c "+-.".

Fixpoint find_char (c : ascii) (l : list ascii) : option nat :=
  match l with
  | [] => None
  | d :: r => if Ascii.eqb c d then Some 0%nat
              else option_map S (find_char c r)
  end.

(** The scheme is split off when [url.find(':') = i > 0], [url[0]] is an
    ASCII letter and every character of [url[:i]] is a scheme character. *)
Definition split_scheme (url : list ascii) : list ascii :=
  match find_char ":"%char url with
  | Some (S _ as i) =>
      match url with
      | c0 :: _ =>
          if is_alpha c0 && forallb is_scheme_char (firstn i url)
          then skipn (S i) url else url
      | [] => url
      end
  | _ => url
  end.

(** [_splitnetloc(url, 2)]: the netloc ends at the first '/', '?' or '#'. *)
Fixpoint take_netloc (l : list ascii) : list ascii :=
  match l with
  | [] => []
  | c :: r => if in_chars c "/?#" then [] else c :: take_netloc r
  end.

(** [urlsplit(url).netloc]; raises [ValueError] on an unbalanced '[' or ']'
    ("Invalid IPv6 URL").  The finer validation of a bracketed host done by
    the newest Python releases only adds further [ValueError]s and is not
    modelled. *)
Definition netloc (url : string) : res string :=
  let u := List.filter (fun c => negb (is_unsafe c))
             (drop_while is_c0_or_space (chars url)) in
  let u := split_scheme u in
  match u with
  | "/"%char :: "/"%char :: rest =>
      let n := take_netloc rest in
      let has_open := existsb (fun c => Ascii.eqb c "["%char) n in
      let has_close := existsb (fun c => Ascii.eqb c "]"%char) n in
      if (has_open && negb has_close) || (has_close && negb has_open)
      then Raise ValueError
      else Ok (of_chars n)
  | _ => Ok ""%string
  end.

End UrlParse.

(** ** [core/fetcher.py] *)
Module Fetcher.
Import Py.

(** Values produced by [response.json()]; JSON numbers are kept exactly as
    rationals (Python gives an int or a float). *)
Inductive json :=
  | JNull
  | JBool (b : bool)
  | JNum (q : Q)
  | JStr (s : string)
  | JArr (l : list json)
  | JObj (kvs : list (string * json)).

(** What [await client.get(WAYBACK_CDX_API, params=params)] does: it raises
    one of the httpx transport errors or yields a response with a status code
    and a body, [None] standing for a body that is not valid JSON. *)
Inductive http_outcome :=
  | HConnectError
  | HTimeout
  | HOtherError
  | HResponse (status : Z) (body : option json).

(** [not data]: the falsy JSON values. *)
Definition py_falsy (j : json) : bool :=
  match j with
  | JNull => true
  | JBool b => negb b
  | JNum q => Qeq_bool q 0
  | JStr s => String.eqb s ""
  | JArr l => match l with [] => true | _ => false end
  | JObj kvs => match kvs with [] => true | _ => false end
  end.

(** [len(data)] *)
Definition py_len (j : json) : res nat :=
  match j with
  | JStr s => Ok (String.length s)
  | JArr l => Ok (List.length l)
  | JObj kvs => Ok (List.length kvs)
  | _ => Raise TypeError
  end.

(** [data[1:]] as the sequence iterated by the [for] loop: the tail of a
    list, or the one-character strings of a string; a dict cannot be
    sliced. *)
Definition py_tail (j : json) : res (list json) :=
  match j with
  | JArr l => Ok (tl l)
  | JStr s => Ok (map (fun c => JStr (String c EmptyString)) (tl (chars s)))
  | JObj _ => Raise TypeError
  | _ => Raise TypeError
  end.

(** [row[0]] *)
Definition py_index0 (row : json) : res json :=
  match row with
  | JArr (x :: _) => Ok x
  | JArr [] => Raise IndexError
  | JStr (String c _) => Ok (JStr (String c EmptyString))
  | JStr EmptyString => Raise IndexError
  | JObj _ => Raise KeyError
  | _ => Raise TypeError
  end.

(** [urlparse(url).netloc] for the value found in [row[0]].  Only a [str]
    gets through: [urlparse] of a truthy non-string raises AttributeError
    (no [.decode]); a falsy one is coerced to [b''], and then
    [b''.endswith(domain)] raises TypeError. *)
Definition row_netloc (url : json) : res (string * string) :=
  match url with
  | JStr u =>
      match UrlParse.netloc u with
      | Ok n => Ok (u, n)
      | Raise e => Raise e
      end
  | _ => if py_falsy url then Raise TypeError else Raise AttributeError
  end.

(** Line 55: [parsed_url.netloc.endswith(domain) or parsed_url.netloc == domain]. *)
Definition host_check (domain netloc : string) : bool :=
  endswith netloc domain || String.eqb netloc domain.

(** The [for] loop of lines 49-56; the set [urls] is mutated in place, so an
    exception leaves in it the URLs added by the earlier rows. *)
Fixpoint process_rows (domain : string) (rows : list json) (urls : gset string)
    : gset string * option exn :=
  match rows with
  | [] => (urls, None)
  | row :: rest =>
      match py_index0 row with
      | Raise e => (urls, Some e)
      | Ok url =>
          match row_netloc url with
          | Raise e => (urls, Some e)
          | Ok (u, n) =>
              process_rows domain rest
                (if host_check domain n then {[ u ]} ∪ urls else urls)
          end
      end
  end.

(** The body of the [try] block (lines 38-56): the final value of [urls]
    and the exception raised, if any. *)
Definition fetch_body (domain : string) (o : http_outcome)
    : gset string * option exn :=
  let urls : gset string := ∅ in
  match o with
  | HConnectError => (urls, Some ConnectError)
  | HTimeout => (urls, Some HttpxTimeout)
  | HOtherError => (urls, Some OtherHttpxError)
  | HResponse status body =>
      (* [response.raise_for_status()] *)
      if negb ((200 <=? status)%Z && (status <? 300)%Z)
      then (urls, Some (HTTPStatusError status))
      else
        match body with
        | None => (urls, Some JSONDecodeError)
        | Some data =>
            if py_falsy data then (urls, None)
            else
              match py_len data with
              | Raise e => (urls, Some e)
              | Ok n =>
                  if (n <=? 1)%nat then (urls, None)
                  else
                    match py_tail data with
                    | Raise e => (urls, Some e)
                    | Ok rows => process_rows domain rows urls
                    end
              end
        end
  end.

(** Diagnostic printed by the [except] clauses (lines 58-63). *)
Inductive diag :=
  | DiagConnection
  | DiagHTTP (code : Z)
  | DiagUnexpected (e : exn).

Definition diagnostic (e : exn) : diag :=
  match e with
  | ConnectError => DiagConnection
  | HTTPStatusError c => DiagHTTP c
  | e => DiagUnexpected e
  end.

(** [fetch_wayback_urls(domain)]: every exception of the [try] block is an
    [Exception] and is caught; the function then prints a diagnostic and
    falls through to [return urls]. *)
Definition fetch_wayback_urls_logged (domain : string) (o : http_outcome)
    : option diag * gset string :=
  let '(urls, err) := fetch_body domain o in
  (option_map diagnostic err, urls).

Definition fetch_wayback_urls (domain : string) (o : http_outcome) : gset string :=
  snd (fetch_wayback_urls_logged domain o).

(** A row whose processing raises: [row[0]] fails, or [urlparse] does. *)
Definition row_raises (row : json) : option exn :=
  match py_index0 row with
  | Raise e => Some e
  | Ok url => match row_netloc url with Raise e => Some e | Ok _ => None end
  end.

End Fetcher.

(** ** [utils/decorators.py] *)
Module Decorators.

(** [retry_on_failure(max_retries, delay, exceptions)(func)]: [func] is any
    operation; its outcome at attempt [attempt] (0-based) is [func attempt],
    which may differ from call to call.  The wrapper's observable behaviour is
    the trace of calls and sleeps and its final outcome. *)
Inductive event :=
  | Call (attempt : Z)
  | Warn (attempt : Z)       (* "Attempt k/N failed ... Retrying" *)
  | Sleep (delay : Z)        (* [time.sleep(delay)] *)
  | GiveUp.                  (* "Function failed after N attempts." *)

(** The wrapper either returns a value of [func], returns [None] (line 31,
    reached only when the [for] loop is empty) or raises. *)
Inductive outcome (T : Type) :=
  | Returned (v : T)
  | ReturnedNone
  | Raised (e : exn).
Arguments Returned {T} v.
Arguments ReturnedNone {T}.
Arguments Raised {T} e.

(** [exceptions = (HTTPStatusError, ConnectError, TimeoutError)] and the
    [isinstance] test of [except exceptions]. *)
Definition default_exceptions (e : exn) : bool :=
  match e with
  | HTTPStatusError _ | ConnectError | TimeoutError => true
  | _ => false
  end.

Section Retry.
Context {T : Type}.
Variable max_retries : Z.
Variable delay : Z.
Variable exceptions : exn -> bool.
Variable func : Z -> res T.

(** The loop [for attempt in range(max_retries)] over the remaining
    attempts. *)
Fixpoint retry_loop (attempts : list Z) : list event * outcome T :=
  match attempts with
  | [] => ([], ReturnedNone)
  | attempt :: rest =>
      match func attempt with
      | Ok v => ([Call attempt], Returned v)
      | Raise e =>
          if exceptions e then
            if (attempt <? max_retries - 1)%Z then
              let '(tr, r) := retry_loop rest in
              (Call attempt :: Warn attempt :: Sleep delay :: tr, r)
            else ([Call attempt; GiveUp], Raised e)
          else ([Call attempt], Raised e)
      end
  end.

(** [range(max_retries)] *)
Definition py_range (n : Z) : list Z := map Z.of_nat (seq 0 (Z.to_nat n)).

Definition wrapper : list event * outcome T := retry_loop (py_range max_retries).

End Retry.

Definition is_call (ev : event) : bool :=
  match ev with Call _ => true | _ => false end.

(** Number of times [func] was invoked. *)
Definition calls (tr : list event) : nat := List.length (List.filter is_call tr).

Definition is_sleep (ev : event) : bool :=
  match ev with Sleep _ => true | _ => false end.

(** Number of sleeps. *)
Definition sleeps (tr : list event) : nat :=
  List.length (List.filter is_sleep tr).

(** The trace of [k] consecutive retried attempts starting at [s]. *)
Fixpoint retried_trace (delay : Z) (s : Z) (k : nat) : list event :=
  match k with
  | O => []
  | S k' => Call s :: Warn s :: Sleep delay :: retried_trace delay (s + 1) k'
  end.

(** Attempt [attempt] of [func] fails with an exception that is retried. *)
Definition retryable_failure {T : Type} (exceptions : exn -> bool)
    (func : Z -> res T) (attempt : Z) : Prop :=
  exists e, func attempt = Raise e /\ exceptions e = true.

End Decorators.

(** ** [paramspy/core/cache.py] *)
Module Cache.

(** [CACHE_TTL = 30 * 24 * 60 * 60] seconds. *)
Definition CACHE_TTL : Z := 30 * 24 * 60 * 60.

(** A row of the table [params (domain TEXT PRIMARY KEY, params_json TEXT,
    timestamp INTEGER)].  The column [params_json] holds [json.dumps(params)]
    of a list of [str], which [json.loads] gives back unchanged; the row keeps
    the list itself. *)
Record row := mkRow {
  row_domain : string;
  row_params : list string;
  row_timestamp : Z
}.

(** The table, in rowid order (a new row is appended at the end). *)
Definition table := list row.

(** The clock [time.time()] is a reading in seconds, kept exact as a
    rational. *)
Definition clock := Q.

(** [int(x)] of a float: truncation toward zero. *)
Definition py_int (q : Q) : Z :=
  if Qle_bool 0 q then Qfloor q else - Qfloor (- q).

(** The table's key constraint: at most one row per domain. *)
Definition table_wf (t : table) : Prop := NoDup (map row_domain t).

(** [_setup_db]: [CREATE TABLE IF NOT EXISTS]; an existing table is left
    as it is. *)
Definition setup_db (t : table) : table := t.

(** [SELECT ... WHERE domain = ?] then [fetchone()]. *)
Definition select_one (domain : string) (t : table) : option row :=
  List.find (fun r => String.eqb (row_domain r) domain) t.

(** [delete]: [DELETE FROM params WHERE domain = ?]. *)
Definition delete (domain : string) (t : table) : table :=
  List.filter (fun r => negb (String.eqb (row_domain r) domain)) t.

(** [time.time() - timestamp < CACHE_TTL] *)
Definition fresh (now : clock) (timestamp : Z) : bool :=
  negb (Qle_bool (inject_Z CACHE_TTL) (now - inject_Z timestamp)).

(** [get]: the list when the row is fresh; otherwise the stale row is deleted
    and [None] returned. *)
Definition get (now : clock) (domain : string) (t : table)
    : option (list string) * table :=
  match select_one domain t with
  | Some r =>
      if fresh now (row_timestamp r) then (Some (row_params r), t)
      else (None, delete domain t)
  | None => (None, t)
  end.

(** [set]: [INSERT OR REPLACE] removes the row holding the same key and
    inserts the new one with [timestamp = int(time.time())]. *)
Definition set (now : clock) (domain : string) (params : list string)
    (t : table) : table :=
  delete domain t ++ [mkRow domain params (py_int now)].

(** [clear_all]: [SELECT COUNT( * )] then [DELETE FROM params]. *)
Definition clear_all (t : table) : Z * table := (Z.of_nat (List.length t), []).

(** [_time_remaining(timestamp)] *)
Inductive remaining :=
  | Expired
  | DaysHours (days hours : Z)
  | Hours (hours : Z)
  | LessThanOneHour.

Definition time_remaining (now : clock) (timestamp : Z) : remaining :=
  let rem := (inject_Z (timestamp + CACHE_TTL) - now)%Q in
  if Qle_bool rem 0 then Expired
  else
    let days := Qfloor (rem / inject_Z (24 * 3600)) in
    let hours := Qfloor ((rem - inject_Z (days * (24 * 3600))) / inject_Z 3600) in
    if (0 <? days)%Z then DaysHours days hours
    else if (0 <? hours)%Z then Hours hours
    else LessThanOneHour.

(** An item of [get_status]; [cached_since] is [strftime] of the timestamp,
    kept here as the timestamp itself. *)
Record status_item := mkStatus {
  st_domain : string;
  st_cached_since : Z;
  st_expires_in : remaining
}.

Definition get_status (now : clock) (t : table) : list status_item :=
  map (fun r => mkStatus (row_domain r) (row_timestamp r)
                         (time_remaining now (row_timestamp r))) t.

(** Every method of [ParamCache], as a step on the table. *)
Inductive cache_op :=
  | OpSetup
  | OpGet (domain : string)
  | OpSet (domain : string) (params : list string)
  | OpDelete (domain : string)
  | OpClearAll
  | OpStatus.

Definition exec (now : clock) (op : cache_op) (t : table) : table :=
  match op with
  | OpSetup => setup_db t
  | OpGet d => snd (get now d t)
  | OpSet d ps => set now d ps t
  | OpDelete d => delete d t
  | OpClearAll => snd (clear_all t)
  | OpStatus => t
  end.

(** A [ParamCache] object: [None] when no [conn] or [cursor] attribute has
    been set on it, [Some t] once [_init_] has run, [t] being the table behind
    [self.conn]. *)
Definition instance := option table.


(** A method whose first access is [self.cursor] (every method below):
    [AttributeError] on an object without that attribute. *)
Definition method {A : Type} (f : table -> A * table) (self : instance)
    : res A * instance :=
  match self with
  | None => (Raise AttributeError, None)
  | Some t => let '(a, t') := f t in (Ok a, Some t')
  end.

Definition m_get (now : clock) (domain : string) : instance -> res (option (list string)) * instance :=
  method (get now domain).
Definition m_set (now : clock) (domain : string) (params : list string)
    : instance -> res unit * instance :=
  method (fun t => (tt, set now domain params t)).

End Cache.

(** ** [paramspy/core/parser.py] *)
Module Parser.
Import Py.

(** Helpers of the extractor below.  The query component is the text after
    the first '?' of the part before the first '#'. *)
Fixpoint before_hash (l : list ascii) : list ascii :=
  match l with
  | [] => []
  | c :: r => if Ascii.eqb c "#"%char then [] else c :: before_hash r
  end.

Fixpoint after_question (l : list ascii) : option (list ascii) :=
  match l with
  | [] => None
  | c :: r => if Ascii.eqb c "?"%char then Some r else after_question r
  end.

Definition query_of (url : string) : option (list ascii) :=
  after_question (before_hash (chars url)).

(** [&]-separated pieces. *)
Fixpoint split_amp (l : list ascii) : list (list ascii) :=
  match l with
  | [] => [[]]
  | c :: r =>
      if Ascii.eqb c "&"%char then [] :: split_amp r
      else match split_amp r with
           | p :: ps => (c :: p) :: ps
           | [] => [[c]]
           end
  end.

Fixpoint before_eq (l : list ascii) : list ascii :=
  match l with
  | [] => []
  | c :: r => if Ascii.eqb c "="%char then [] else c :: before_eq r
  end.

Definition hex_val (c : ascii) : option nat :=
  let n := nat_of_ascii c in
  if (48 <=? n) && (n <=? 57) then Some (n - 48)
  else if (65 <=? n) && (n <=? 70) then Some (n - 55)
  else if (97 <=? n) && (n <=? 102) then Some (n - 87)
  else None.

(** Percent-decoding of a form-encoded name: '+' is a space, "%XX" with two
    hex digits is that byte, any other '%' is kept. *)
Fixpoint unquote_plus (l : list ascii) : list ascii :=
  match l with
  | [] => []
  | "%"%char :: ((h1 :: ((h2 :: r) as t1)) as t0) =>
      match hex_val h1, hex_val h2 with
      | Some a, Some b => ascii_of_nat (16 * a + b) :: unquote_plus r
      | _, _ => "%"%char :: unquote_plus t0
      end
  | "+"%char :: r => " "%char :: unquote_plus r
  | c :: r => c :: unquote_plus r
  end.

Definition key_of (piece : list ascii) : string := of_chars (unquote_plus (before_eq piece)).

(** The non-empty pieces of the query. *)
Definition query_pieces (url : string) : list (list ascii) :=
  match query_of url with
  | None => []
  | Some q => List.filter (fun p => negb (bool_decide (p = []))) (split_amp q)
  end.

(** Modelled from the spec: [extract_params_from_url] of the missing module
    [paramspy/core/parser.py].  The spec (4.3): the query component of the URL
    is parsed into key=value pairs, [&]-separated, percent-decoded, repeated
    keys allowed; the result is the set of distinct keys, values discarded; an
    absent query gives the empty set and nothing raises. *)
Definition extract_params_from_url (url : string) : gset string :=
  foldr (fun p acc => {[ key_of p ]} ∪ acc) ∅ (query_pieces url).

(** Appends the names of [l] not yet in [acc], in order. *)
Fixpoint add_new (acc : list string) (l : list string) : list string :=
  match l with
  | [] => acc
  | x :: r => if bool_decide (x ∈ acc) then add_new acc r else add_new (acc ++ [x]) r
  end.

(** Modelled from the spec: [merge_and_filter_all_params] of the missing
    module [paramspy/core/parser.py].  The spec (4.4): the union of the
    extracted and builtin names without duplicates, in the canonical order it
    gives as example: builtin order first, then the newly discovered names in
    first-seen order; no noise filter is specified. *)
Definition merge_and_filter_all_params (extracted builtin : list string)
    : list string :=
  add_new (add_new [] builtin) extracted.

End Parser.

(** ** [paramspy/cli.py] *)
Module Cli.
Import Py.
Import Fetcher.

(** Console output and the observable calls of a command. *)
Inductive event :=
  | EvBuiltinNotFound            (* "Built-in parameter list not found." *)
  | EvBuiltinParseError          (* "Failed to parse built-in parameter list." *)
  | EvScanning (domain : string)
  | EvFetch (domain : string)    (* the call of [fetch_wayback_urls] *)
  | EvNoURLs (domain : string)   (* "No URLs found for ... in Wayback Machine." *)
  | EvFound (n : nat)
  | EvNoHighSignal
  | EvJson (domain : string) (params : list string)
  | EvFinalList (n : nat)
  | EvParam (p : string)
  | EvClearedOne (domain : string)  (* "Cache entry for ... cleared." *)
  | EvClearedAll (count : Z)        (* "Cleared ... entries from the cache." *)
  | EvCacheEmpty                    (* "Cache is empty." *)
  | EvCacheStatus (n : nat)         (* "Cache Status (n domains):" *)
  | EvStatusItem (item : Cache.status_item).

(** What is found at [DATA_PATH]. *)
Inductive fs_entry :=
  | FsAbsent                     (* ENOENT *)
  | FsDirectory                  (* EISDIR *)
  | FsNoPermission               (* EACCES *)
  | FsNotADirectory              (* ENOTDIR: a component of the path is a file *)
  | FsOtherError                 (* ELOOP, ENAMETOOLONG, EIO, ... *)
  | FsFile (bytes : list Z).

(** [open(DATA_PATH, 'r')]: the path is opened for reading. *)
Definition py_open (fs : fs_entry) : res (list Z) :=
  match fs with
  | FsAbsent => Raise FileNotFoundError
  | FsDirectory => Raise IsADirectoryError
  | FsNoPermission => Raise PermissionError
  | FsNotADirectory => Raise NotADirectoryError
  | FsOtherError => Raise OSError
  | FsFile bytes => Ok bytes
  end.

Definition cont (b : Z) : bool := (128 <=? b)%Z && (b <=? 191)%Z.
Definition in_range (lo hi b : Z) : bool := (lo <=? b)%Z && (b <=? hi)%Z.

(** [f.read()] in text mode under a UTF-8 locale: the strict UTF-8 decoder
    (no overlong forms, no surrogates, nothing above U+10FFFF); [None] is a
    [UnicodeDecodeError]. *)
Fixpoint utf8_decode (l : list Z) : option (list Z) :=
  match l with
  | [] => Some []
  | b0 :: r =>
      if in_range 0 127 b0 then option_map (cons b0) (utf8_decode r)
      else if in_range 194 223 b0 then
        match r with
        | b1 :: r' =>
            if cont b1
            then option_map (cons ((b0 - 192) * 64 + (b1 - 128))%Z) (utf8_decode r')
            else None
        | _ => None
        end
      else if in_range 224 239 b0 then
        match r with
        | b1 :: b2 :: r' =>
            let ok1 := if (b0 =? 224)%Z then in_range 160 191 b1
                       else if (b0 =? 237)%Z then in_range 128 159 b1
                       else cont b1 in
            if ok1 && cont b2
            then option_map (cons ((b0 - 224) * 4096 + (b1 - 128) * 64 + (b2 - 128))%Z)
                   (utf8_decode r')
            else None
        | _ => None
        end
      else if in_range 240 244 b0 then
        match r with
        | b1 :: b2 :: b3 :: r' =>
            let ok1 := if (b0 =? 240)%Z then in_range 144 191 b1
                       else if (b0 =? 244)%Z then in_range 128 143 b1
                       else cont b1 in
            if ok1 && cont b2 && cont b3
            then option_map (cons ((b0 - 240) * 262144 + (b1 - 128) * 4096
                                   + (b2 - 128) * 64 + (b3 - 128))%Z)
                   (utf8_decode r')
            else None
        | _ => None
        end
      else None
  end.

Section Loader.
(** [json.loads] of the decoded text: the value, or the exception it raises
    ([JSONDecodeError] for text that is not JSON, [RecursionError] for too
    deeply nested text).  The standard library's parser is a parameter. *)
Variable json_loads : list Z -> res json.

(** [_load_builtin_params()] (lines 26-36): only [FileNotFoundError] and
    [json.JSONDecodeError] are caught. *)
Definition load_builtin_params (fs : fs_entry) : list event * res json :=
  match py_open fs with
  | Raise FileNotFoundError => ([EvBuiltinNotFound], Ok (JArr []))
  | Raise e => ([], Raise e)
  | Ok bytes =>
      match utf8_decode bytes with
      | None => ([], Raise UnicodeDecodeError)
      | Some text =>
          match json_loads text with
          | Raise JSONDecodeError => ([EvBuiltinParseError], Ok (JArr []))
          | Raise e => ([], Raise e)
          | Ok v => ([], Ok v)
          end
      end
  end.

End Loader.

(** [domain.lower().strip().replace('http://', '').replace('https://', '')] *)
Definition normalize (domain : string) : string :=
  replace (replace (strip (lower domain)) "http://" "") "https://" "".

(** How the command ends: normally, through [typer.Exit(code)], or with an
    exception escaping the command. *)
Inductive scan_end :=
  | ScanReturned
  | ScanExit (code : Z)
  | ScanRaised (e : exn).

(** Step 6, output of the final list. *)
Definition output_results (domain : string) (output : option string)
    (final : list string) : list event :=
  match final with
  | [] => [EvNoHighSignal]
  | _ =>
      if bool_decide (output = Some "json"%string) then [EvJson domain final]
      else EvFinalList (List.length final) :: map EvParam final
  end.

Section Scan.
Variable json_loads : list Z -> res json.
(** [extract_params_from_url] and [merge_and_filter_all_params] of the
    module [paramspy.core.parser]. *)
Variable extract : string -> gset string.
Variable merge : list string -> json -> res (list string).

(** [scan(domain, aggressive, output)]: [now_get] and [now_set] are the
    clock readings of [param_cache.get] and [param_cache.set], [net] what the
    archive request yields, [fs] what is at [DATA_PATH], [pc] the object
    [param_cache]. *)
Definition scan (domain : string) (output : option string)
    (now_get now_set : Cache.clock) (net : http_outcome) (fs : fs_entry)
    (pc : Cache.instance) : list event * scan_end * Cache.instance :=
  let d := normalize domain in
  match Cache.m_get now_get d pc with
  | (Raise e, pc1) => ([], ScanRaised e, pc1)
  | (Ok cached_params, pc1) =>
      match cached_params with
      | Some ((_ :: _) as final_params) =>
          (output_results d output final_params, ScanReturned, pc1)
      | _ =>
          let evs := [EvScanning d; EvFetch d] in
          let urls := fetch_wayback_urls d net in
          if bool_decide (urls = ∅) then (evs ++ [EvNoURLs d], ScanExit 1, pc1)
          else
            let evs := evs ++ [EvFound (size urls)] in
            let extracted_set := set_fold (fun u acc => extract u ∪ acc) ∅ urls in
            let '(evs_b, builtin) := load_builtin_params json_loads fs in
            let evs := evs ++ evs_b in
            match builtin with
            | Raise e => (evs, ScanRaised e, pc1)
            | Ok builtin_params =>
                match merge (elements extracted_set) builtin_params with
                | Raise e => (evs, ScanRaised e, pc1)
                | Ok final_params =>
                    match Cache.m_set now_set d final_params pc1 with
                    | (Raise e, pc2) => (evs, ScanRaised e, pc2)
                    | (Ok _, pc2) =>
                        (evs ++ output_results d output final_params, ScanReturned, pc2)
                    end
                end
            end
      end
  end.

End Scan.




End Cli.

(** * Properties *)

Import Fetcher.

(** ** The archive fetch *)

Lemma process_rows_app (domain : string) (pre post : list json) (urls : gset string) :
  process_rows domain (pre ++ post) urls =
  match process_rows domain pre urls with
  | (s, None) => process_rows domain post s
  | (s, Some e) => (s, Some e)
  end.
Proof.
  revert urls; induction pre as [|row pre IH]; intros urls; simpl; [done|].
  destruct (py_index0 row) as [url|e]; [|done].
  destruct (row_netloc url) as [[u n]|e]; [|done].
  apply IH.
Qed.

Lemma process_rows_raises (domain : string) (row : json) (post : list json)
    (urls : gset string) (e : exn) :
  row_raises row = Some e ->
  process_rows domain (row :: post) urls = (urls, Some e).
Proof.
  unfold row_raises; simpl.
  destruct (py_index0 row) as [url|e']; [|congruence].
  destruct (row_netloc url) as [[u n]|e']; congruence.
Qed.

Lemma fetch_request_failure (domain : string) (o : http_outcome) :
  match o with
  | HResponse status (Some _) => (200 <= status < 300)%Z -> False
  | _ => True
  end ->
  exists d, fetch_wayback_urls_logged domain o = (Some d, ∅).
Proof.
  unfold fetch_wayback_urls_logged, fetch_body.
  destruct o as [| | |status [body|]]; intros Hs; simpl; eauto.
  - destruct (200 <=? status)%Z eqn:E1, (status <? 300)%Z eqn:E2; simpl; eauto.
    exfalso; apply Hs. apply Z.leb_le in E1; apply Z.ltb_lt in E2; lia.
  - destruct (negb ((200 <=? status)%Z && (status <? 300)%Z)); simpl; eauto.
Qed.

(** C1 (the defect): for the target domain "example.com", a CDX response
    row holding a URL on the host "notexample.com" is kept in the result, since
    the host test is a bare [endswith(domain)]. *)
Lemma fetch_keeps_notexample :
  "https://notexample.com/c"%string ∈
    fetch_wayback_urls "example.com"
      (HResponse 200 (Some (JArr [JArr [JStr "original"];
                                  JArr [JStr "https://notexample.com/c"]]))).
Proof. apply (bool_decide_unpack _ (dec := elem_of_dec_slow _ _)). vm_compute. exact I. Qed.

(** C2 (as the code has it): [fetch_wayback_urls] never lets an exception of
    its [try] block escape; it prints a diagnostic and returns [urls] as it
    stands.  When the request fails (connection failure, timeout, other
    transport error), the status is not 2xx, or the body is not JSON, that set
    is empty.  When a response row raises, the result is the set of URLs
    accepted from the rows before it. *)
Theorem fetch_failure_policy :
  (forall (domain : string) (o : http_outcome),
      match o with
      | HResponse status (Some _) => (200 <= status < 300)%Z -> False
      | _ => True
      end ->
      exists d, fetch_wayback_urls_logged domain o = (Some d, ∅)) /\
  (forall (domain : string) (status : Z) (header : json)
          (pre : list json) (bad : json) (post : list json)
          (accepted : gset string) (e : exn),
      (200 <= status < 300)%Z ->
      process_rows domain pre ∅ = (accepted, None) ->
      row_raises bad = Some e ->
      fetch_wayback_urls_logged domain
        (HResponse status (Some (JArr (header :: pre ++ bad :: post))))
      = (Some (diagnostic e), accepted)).
Proof.
  split; [apply fetch_request_failure|].
  intros domain status header pre bad post accepted e Hs Hpre Hbad.
  unfold fetch_wayback_urls_logged, fetch_body.
  destruct (200 <=? status)%Z eqn:E1; [|apply Z.leb_gt in E1; lia].
  destruct (status <? 300)%Z eqn:E2; [|apply Z.ltb_ge in E2; lia].
  simpl.
  destruct (List.length (pre ++ bad :: post)) as [|n] eqn:Hlen.
  { rewrite length_app in Hlen; simpl in Hlen; lia. }
  rewrite process_rows_app, Hpre, (process_rows_raises _ _ _ _ _ Hbad).
  reflexivity.
Qed.

Lemma fetch_failure_policy_witness :
  (200 <= 200 < 300)%Z /\
  process_rows "example.com" [JArr [JStr "https://example.com/a"]] ∅
    = ({[ "https://example.com/a"%string ]}, None) /\
  row_raises (JArr []) = Some IndexError /\
  fetch_wayback_urls_logged "example.com"
    (HResponse 200 (Some (JArr (JArr [JStr "original"] ::
       [JArr [JStr "https://example.com/a"]] ++ JArr [] :: []))))
  = (Some (diagnostic IndexError), {[ "https://example.com/a"%string ]}) /\
  (exists d, fetch_wayback_urls_logged "example.com" HConnectError = (Some d, ∅)).
Proof.
  assert (Hr : process_rows "example.com" [JArr [JStr "https://example.com/a"]] ∅
               = ({[ "https://example.com/a"%string ]}, None))
    by (vm_compute; reflexivity).
  split; [lia|]. split; [exact Hr|]. split; [reflexivity|]. split.
  - apply (proj2 fetch_failure_policy); [lia|exact Hr|reflexivity].
  - apply (proj1 fetch_failure_policy). exact I.
Defined.

(** C2 fails as stated: with an empty row after an accepted one, [row[0]]
    raises IndexError, which is caught, and the URL accepted before it is
    still returned; the result is not the empty set. *)
Lemma fetch_partial_result :
  fetch_body "example.com"
    (HResponse 200 (Some (JArr [JArr [JStr "original"];
                                JArr [JStr "https://example.com/a"];
                                JArr []])))
  = ({[ "https://example.com/a"%string ]}, Some IndexError) /\
  fetch_wayback_urls "example.com"
    (HResponse 200 (Some (JArr [JArr [JStr "original"];
                                JArr [JStr "https://example.com/a"];
                                JArr []])))
  <> ∅.
Proof.
  split; [vm_compute; reflexivity|].
  intros H.
  assert (Hin : "https://example.com/a"%string ∈
    fetch_wayback_urls "example.com"
      (HResponse 200 (Some (JArr [JArr [JStr "original"];
                                  JArr [JStr "https://example.com/a"];
                                  JArr []])))).
  { apply (bool_decide_unpack _ (dec := elem_of_dec_slow _ _)). vm_compute. exact I. }
  rewrite H in Hin. set_solver.
Qed.

(** ** The retry wrapper *)
Import Decorators.


Lemma calls_app (tr1 tr2 : list event) : calls (tr1 ++ tr2) = (calls tr1 + calls tr2)%nat.
Proof. unfold calls. rewrite List.filter_app, length_app. reflexivity. Qed.

Lemma calls_retried_trace (delay s : Z) (k : nat) : calls (retried_trace delay s k) = k.
Proof.
  revert s; induction k as [|k IH]; intros s; [reflexivity|].
  simpl. unfold calls in *. simpl. f_equal. apply IH.
Qed.

Section RetryFacts.
Context {T : Type}.
Variables (max_retries delay : Z) (exceptions : exn -> bool) (func : Z -> res T).


(** Running the loop from attempt [s] over [m] attempts, the first [k]
    of which fail with a retryable exception and are not the last one. *)
Lemma retry_loop_prefix (k m : nat) (s : nat) :
  (k < m)%nat ->
  (Z.of_nat (s + m) <= max_retries)%Z ->
  (forall j : nat, (s <= j < s + k)%nat -> retryable_failure exceptions func (Z.of_nat j)) ->
  retry_loop max_retries delay exceptions func (map Z.of_nat (seq s m)) =
  let '(tr, r) := retry_loop max_retries delay exceptions func
                    (map Z.of_nat (seq (s + k) (m - k))) in
  (retried_trace delay (Z.of_nat s) k ++ tr, r).
Proof.
  revert m s; induction k as [|k IH]; intros m s Hk Hm Hj.
  - rewrite Nat.add_0_r, Nat.sub_0_r. simpl.
    destruct (retry_loop _ _ _ _ _); reflexivity.
  - destruct m as [|m]; [lia|].
    simpl seq; simpl map; simpl retry_loop.
    destruct (Hj s ltac:(lia)) as (e & He & Hex).
    rewrite He, Hex.
    assert (Hlt : (Z.of_nat s <? max_retries - 1)%Z = true) by (apply Z.ltb_lt; lia).
    rewrite Hlt.
    rewrite (IH m (S s)); [|lia|lia|intros j Hjr; apply Hj; lia].
    replace (S s + k)%nat with (s + S k)%nat by lia.
    simpl (S m - S k)%nat.
    destruct (retry_loop _ _ _ _ _) as [tr r].
    replace (Z.of_nat (S s)) with (Z.of_nat s + 1)%Z by lia.
    reflexivity.
Qed.

Lemma wrapper_prefix (k : nat) :
  (Z.of_nat k < max_retries)%Z ->
  (forall j : nat, (j < k)%nat -> retryable_failure exceptions func (Z.of_nat j)) ->
  wrapper max_retries delay exceptions func =
  let '(tr, r) := retry_loop max_retries delay exceptions func
                    (map Z.of_nat (seq k (Z.to_nat max_retries - k))) in
  (retried_trace delay 0 k ++ tr, r).
Proof.
  intros Hk Hj. unfold wrapper, py_range.
  rewrite (retry_loop_prefix k (Z.to_nat max_retries) 0); [|lia|lia|].
  - reflexivity.
  - intros j Hjr; apply Hj; lia.
Qed.

End RetryFacts.

Lemma wrapper_at {T : Type} (max_retries delay : Z) (exceptions : exn -> bool)
    (func : Z -> res T) (k : Z) :
  (0 <= k < max_retries)%Z ->
  (forall j, (0 <= j < k)%Z -> retryable_failure exceptions func j) ->
  exists rest,
    wrapper max_retries delay exceptions func =
    let '(tr, r) := retry_loop max_retries delay exceptions func (k :: rest) in
    (retried_trace delay 0 (Z.to_nat k) ++ tr, r).
Proof.
  intros Hk Hj.
  rewrite (wrapper_prefix max_retries delay exceptions func (Z.to_nat k)); [|lia|].
  - destruct (Z.to_nat max_retries - Z.to_nat k)%nat as [|m] eqn:Hm; [lia|].
    exists (map Z.of_nat (seq (S (Z.to_nat k)) m)).
    simpl seq. simpl map. rewrite Z2Nat.id by lia. reflexivity.
  - intros j Hjk. apply Hj. lia.
Qed.

(** C3: the retry wrapper with attempt budget [max_retries] (3 by default)
    and delay [delay] (2 by default), for any tuple of retried exception
    classes [exceptions] (by default [HTTPStatusError], [ConnectError],
    [TimeoutError], the last being Python's builtin class, of which httpx's
    own timeout exceptions are not instances) and any operation [func]:
    - when every one of the [max_retries] attempts fails with a retried
      exception, the last exception is re-raised as it is, after exactly
      [max_retries] calls;
    - when attempt [k] fails with an exception that is not retried (the
      earlier ones failing with retried exceptions), it is raised at once,
      after [k + 1] calls and no further attempt;
    - when attempt [k] returns [v] (the earlier ones failing with retried
      exceptions), the wrapper returns [v]. *)
Theorem retry_on_failure_contract {T : Type} (max_retries delay : Z)
    (exceptions : exn -> bool) (func : Z -> res T) :
  ((0 < max_retries)%Z ->
   (forall j, (0 <= j < max_retries)%Z -> retryable_failure exceptions func j) ->
   forall e, func (max_retries - 1)%Z = Raise e ->
   let '(tr, r) := wrapper max_retries delay exceptions func in
   r = Raised e /\ calls tr = Z.to_nat max_retries) /\
  (forall k e, (0 <= k < max_retries)%Z ->
   (forall j, (0 <= j < k)%Z -> retryable_failure exceptions func j) ->
   func k = Raise e -> exceptions e = false ->
   let '(tr, r) := wrapper max_retries delay exceptions func in
   r = Raised e /\ calls tr = Z.to_nat (k + 1)) /\
  (forall k (v : T), (0 <= k < max_retries)%Z ->
   (forall j, (0 <= j < k)%Z -> retryable_failure exceptions func j) ->
   func k = Ok v ->
   let '(tr, r) := wrapper max_retries delay exceptions func in
   r = Returned v /\ calls tr = Z.to_nat (k + 1)).
Proof.
  split; [|split].
  - intros Hpos Hall e He.
    destruct (wrapper_at max_retries delay exceptions func (max_retries - 1))
      as [rest Hw]; [lia|intros j Hj; apply Hall; lia|].
    rewrite Hw. simpl. rewrite He.
    destruct (Hall (max_retries - 1)%Z ltac:(lia)) as (e' & He' & Hex).
    rewrite He in He'. injection He' as <-. rewrite Hex.
    assert (Hlt : (max_retries - 1 <? max_retries - 1)%Z = false) by (apply Z.ltb_ge; lia).
    rewrite Hlt. split; [reflexivity|].
    rewrite calls_app, calls_retried_trace. unfold calls; simpl. lia.
  - intros k e Hk Hprev He Hex.
    destruct (wrapper_at max_retries delay exceptions func k) as [rest Hw]; [lia|exact Hprev|].
    rewrite Hw. simpl. rewrite He, Hex. split; [reflexivity|].
    rewrite calls_app, calls_retried_trace. unfold calls; simpl. lia.
  - intros k v Hk Hprev Hv.
    destruct (wrapper_at max_retries delay exceptions func k) as [rest Hw]; [lia|exact Hprev|].
    rewrite Hw. simpl. rewrite Hv. split; [reflexivity|].
    rewrite calls_app, calls_retried_trace. unfold calls; simpl. lia.
Qed.

Lemma retry_on_failure_contract_witness :
  (let '(tr, r) := wrapper 3 2 default_exceptions
                     (fun _ => @Raise nat ConnectError) in
   r = Raised ConnectError /\ calls tr = 3%nat) /\
  (let '(tr, r) := wrapper 3 2 default_exceptions
                     (fun k => if (k =? 0)%Z then @Raise nat (HTTPStatusError 503)
                               else Raise ValueError) in
   r = Raised ValueError /\ calls tr = Z.to_nat (1 + 1)) /\
  (let '(tr, r) := wrapper 3 2 default_exceptions
                     (fun k => if (k =? 0)%Z then Raise TimeoutError else Ok 7%nat) in
   r = Returned 7%nat /\ calls tr = Z.to_nat (1 + 1)).
Proof.
  split; [|split].
  - apply (proj1 (retry_on_failure_contract 3 2 default_exceptions
                    (fun _ => @Raise nat ConnectError))).
    + lia.
    + intros j _. exists ConnectError. split; reflexivity.
    + reflexivity.
  - apply (proj1 (proj2 (retry_on_failure_contract 3 2 default_exceptions
                    (fun k => if (k =? 0)%Z then @Raise nat (HTTPStatusError 503)
                              else Raise ValueError))) 1%Z ValueError).
    + lia.
    + intros j Hj. assert (j = 0%Z) as -> by lia.
      exists (HTTPStatusError 503). split; reflexivity.
    + reflexivity.
    + reflexivity.
  - apply (proj2 (proj2 (retry_on_failure_contract 3 2 default_exceptions
                    (fun k => if (k =? 0)%Z then Raise TimeoutError else Ok 7%nat))) 1%Z 7%nat).
    + lia.
    + intros j Hj. assert (j = 0%Z) as -> by lia.
      exists TimeoutError. split; reflexivity.
    + reflexivity.
Defined.

(** ** The cache *)
Import Cache.

Lemma select_one_some (d : string) (t : table) (r : row) :
  select_one d t = Some r -> In r t /\ row_domain r = d.
Proof.
  unfold select_one. intros H. apply find_some in H as [Hin Heq].
  split; [exact Hin|]. apply String.eqb_eq in Heq. exact Heq.
Qed.

Lemma select_one_none (d : string) (t : table) :
  (forall r, In r t -> row_domain r <> d) -> select_one d t = None.
Proof.
  intros H. unfold select_one.
  destruct (List.find _ t) as [r|] eqn:E; [|reflexivity].
  apply find_some in E as [Hin Heq]. apply String.eqb_eq in Heq.
  exfalso. exact (H r Hin Heq).
Qed.

Lemma select_one_wf (t : table) (r : row) :
  table_wf t -> In r t -> select_one (row_domain r) t = Some r.
Proof.
  unfold table_wf, select_one.
  induction t as [|a t IH]; simpl; intros Hnd Hin; [contradiction|].
  inversion Hnd as [|x l Hnotin Hnd']; subst.
  destruct Hin as [<-|Hin].
  - rewrite String.eqb_refl. reflexivity.
  - destruct (String.eqb (row_domain a) (row_domain r)) eqn:E.
    + apply String.eqb_eq in E. exfalso. apply Hnotin.
      rewrite E. apply list_elem_of_In, in_map. exact Hin.
    + apply IH; assumption.
Qed.

Lemma in_delete (d : string) (t : table) (r : row) :
  In r (delete d t) <-> In r t /\ row_domain r <> d.
Proof.
  unfold delete. rewrite filter_In.
  destruct (String.eqb (row_domain r) d) eqn:E; simpl.
  - apply String.eqb_eq in E. split; [intros [_ H]; discriminate|intros [_ H]; contradiction].
  - apply String.eqb_neq in E. tauto.
Qed.

Lemma fresh_iff (now : clock) (timestamp : Z) :
  fresh now timestamp = true <-> (now - inject_Z timestamp < inject_Z CACHE_TTL)%Q.
Proof.
  unfold fresh. rewrite negb_true_iff.
  split.
  - intros H. apply Qnot_le_lt. intros Hle.
    apply Qle_bool_iff in Hle. congruence.
  - intros H. destruct (Qle_bool _ _) eqn:E; [|reflexivity].
    apply Qle_bool_iff in E. exfalso. apply (Qlt_not_le _ _ H E).
Qed.

Lemma not_fresh_iff (now : clock) (timestamp : Z) :
  fresh now timestamp = false <-> (inject_Z CACHE_TTL <= now - inject_Z timestamp)%Q.
Proof.
  unfold fresh. rewrite negb_false_iff. apply Qle_bool_iff.
Qed.

(** C4: for a table satisfying its key constraint and a row [(d, L, T)] in
    it, [get] at a clock reading [now] with [now - T < CACHE_TTL] returns [L]
    and leaves the table alone; at [now] with [now - T >= CACHE_TTL] it
    returns [None] and deletes the row, leaving no row for [d]; and for a
    domain without a row it returns [None] and changes nothing. *)
Theorem cache_get_ttl :
  (forall (t : table) (d : string) (L : list string) (T : Z) (now : clock),
     table_wf t -> In (mkRow d L T) t ->
     ((now - inject_Z T < inject_Z CACHE_TTL)%Q -> get now d t = (Some L, t)) /\
     ((inject_Z CACHE_TTL <= now - inject_Z T)%Q ->
        get now d t = (None, delete d t) /\
        forall r, In r (delete d t) -> row_domain r <> d)) /\
  (forall (t : table) (d : string) (now : clock),
     (forall r, In r t -> row_domain r <> d) -> get now d t = (None, t)).
Proof.
  split.
  - intros t d L T now Hwf Hin.
    pose proof (select_one_wf t _ Hwf Hin) as Hsel. simpl in Hsel.
    unfold get. rewrite Hsel. simpl. split.
    + intros Hlt. apply fresh_iff in Hlt. rewrite Hlt. reflexivity.
    + intros Hge. apply not_fresh_iff in Hge. rewrite Hge.
      split; [reflexivity|]. intros r Hr. apply in_delete in Hr. tauto.
  - intros t d now Hnone. unfold get. rewrite (select_one_none d t Hnone). reflexivity.
Qed.

Lemma cache_get_ttl_witness :
  get (inject_Z (100 + CACHE_TTL - 1)) "example.com"
      [mkRow "example.com" ["id"] 100; mkRow "other.org" [] 5]
    = (Some ["id"%string], [mkRow "example.com" ["id"] 100; mkRow "other.org" [] 5]) /\
  get (inject_Z (100 + CACHE_TTL + 1)) "example.com"
      [mkRow "example.com" ["id"] 100; mkRow "other.org" [] 5]
    = (None, delete "example.com" [mkRow "example.com" ["id"] 100; mkRow "other.org" [] 5]) /\
  get (inject_Z 0) "missing.net" [mkRow "example.com" ["id"] 100]
    = (None, [mkRow "example.com" ["id"] 100]).
Proof.
  assert (Hwf : table_wf [mkRow "example.com" ["id"] 100; mkRow "other.org" [] 5]).
  { unfold table_wf. simpl. apply (bool_decide_unpack _). vm_compute. exact I. }
  assert (Hin : In (mkRow "example.com" ["id"] 100)
                   [mkRow "example.com" ["id"] 100; mkRow "other.org" [] 5])
    by (left; reflexivity).
  split; [|split].
  - apply (proj1 (proj1 cache_get_ttl _ _ _ _ (inject_Z (100 + CACHE_TTL - 1)) Hwf Hin)).
    vm_compute. reflexivity.
  - apply (proj2 (proj1 cache_get_ttl _ _ _ _ (inject_Z (100 + CACHE_TTL + 1)) Hwf Hin)).
    vm_compute. discriminate.
  - apply (proj2 cache_get_ttl).
    intros r [<-|[]]. discriminate.
Defined.

Lemma nodup_map_filter {A B : Type} (f : A -> B) (p : A -> bool) (l : list A) :
  NoDup (map f l) -> NoDup (map f (List.filter p l)).
Proof.
  induction l as [|a l IH]; simpl; intros Hnd; [constructor|].
  apply NoDup_cons in Hnd as [Hnot Hnd].
  destruct (p a); simpl; [|apply IH, Hnd].
  apply NoDup_cons. split; [|apply IH, Hnd].
  intros Hin. apply Hnot.
  apply list_elem_of_In in Hin. apply list_elem_of_In.
  apply in_map_iff in Hin as (x & Hx & Hxin). apply filter_In in Hxin as [Hxin _].
  apply in_map_iff. exists x. split; assumption.
Qed.

Lemma wf_delete (d : string) (t : table) : table_wf t -> table_wf (delete d t).
Proof. apply nodup_map_filter. Qed.

Lemma wf_set (now : clock) (d : string) (L : list string) (t : table) :
  table_wf t -> table_wf (set now d L t).
Proof.
  intros Hwf. unfold table_wf, set. rewrite map_app. simpl.
  apply NoDup_app. split; [apply wf_delete, Hwf|]. split.
  - intros x Hx Hx'. apply list_elem_of_singleton in Hx'. subst x.
    apply list_elem_of_In, in_map_iff in Hx as (r & Hr & Hin).
    apply in_delete in Hin. tauto.
  - apply NoDup_singleton.
Qed.

Lemma find_app_none {A : Type} (p : A -> bool) (l1 l2 : list A) :
  List.find p l1 = None -> List.find p (l1 ++ l2) = List.find p l2.
Proof.
  induction l1 as [|a l1 IH]; simpl; [reflexivity|].
  destruct (p a); [discriminate|exact IH].
Qed.

Lemma filter_delete_same (d : string) (t : table) :
  List.filter (fun r => String.eqb (row_domain r) d) (delete d t) = [].
Proof.
  unfold delete. induction t as [|a t IH]; simpl; [reflexivity|].
  destruct (String.eqb (row_domain a) d) eqn:E; simpl; [exact IH|].
  rewrite E. exact IH.
Qed.

Lemma filter_delete_other (d : string) (t : table) :
  List.filter (fun r => negb (String.eqb (row_domain r) d)) (delete d t) = delete d t.
Proof.
  unfold delete. induction t as [|a t IH]; simpl; [reflexivity|].
  destruct (String.eqb (row_domain a) d) eqn:E; simpl; [exact IH|].
  rewrite E. simpl. f_equal. exact IH.
Qed.

(** C6: the table keeps at most one row per domain under every operation
    of [ParamCache]; [set(d, L)] at clock [now] leaves exactly one row for [d],
    holding [L] and the timestamp [int(now)], keeps the rows of the other
    domains, and a later [get(d)] within the TTL of that timestamp returns
    [L]. *)
Theorem cache_one_entry_per_domain :
  (forall (now : clock) (op : cache_op) (t : table),
     table_wf t -> table_wf (exec now op t)) /\
  (forall (now : clock) (d : string) (L : list string) (t : table),
     List.filter (fun r => String.eqb (row_domain r) d) (set now d L t)
       = [mkRow d L (py_int now)] /\
     List.filter (fun r => negb (String.eqb (row_domain r) d)) (set now d L t)
       = delete d t /\
     forall later : clock,
       (later - inject_Z (py_int now) < inject_Z CACHE_TTL)%Q ->
       fst (get later d (set now d L t)) = Some L).
Proof.
  split.
  - intros now op t Hwf. destruct op as [|d|d ps|d| |]; simpl.
    + exact Hwf.
    + unfold get. destruct (select_one d t) as [r|]; [|exact Hwf].
      destruct (fresh now (row_timestamp r)); [exact Hwf|apply wf_delete, Hwf].
    + apply wf_set, Hwf.
    + apply wf_delete, Hwf.
    + constructor.
    + exact Hwf.
  - intros now d L t. split; [|split].
    + unfold set. rewrite List.filter_app, filter_delete_same. simpl.
      rewrite String.eqb_refl. reflexivity.
    + unfold set. rewrite List.filter_app, filter_delete_other. simpl.
      rewrite String.eqb_refl. simpl. apply app_nil_r.
    + intros later Hlt. unfold get, set, select_one.
      rewrite find_app_none.
      * simpl. rewrite String.eqb_refl. simpl.
        apply fresh_iff in Hlt. rewrite Hlt. reflexivity.
      * apply select_one_none. intros r Hr. apply in_delete in Hr. tauto.
Qed.

Lemma cache_one_entry_per_domain_witness :
  table_wf (exec (inject_Z 1000) (OpSet "example.com" ["q"])
              [mkRow "example.com" ["id"] 100; mkRow "other.org" [] 5]) /\
  fst (get (inject_Z 2000) "example.com"
         (set (inject_Z 1000) "example.com" ["q"]
              [mkRow "example.com" ["id"] 100; mkRow "other.org" [] 5]))
    = Some ["q"%string].
Proof.
  split.
  - apply (proj1 cache_one_entry_per_domain).
    unfold table_wf. simpl. apply (bool_decide_unpack _). vm_compute. exact I.
  - apply (proj2 (proj2 (proj2 cache_one_entry_per_domain _ _ _ _))).
    vm_compute. reflexivity.
Defined.

(** C7: [clear_all()] on a table of [n] rows returns [n] and leaves an
    empty table, whose [get_status()] is empty; on five rows it returns 5. *)
Theorem cache_clear_all_count :
  forall (now : clock) (t : table),
    fst (clear_all t) = Z.of_nat (List.length t) /\
    snd (clear_all t) = [] /\
    get_status now (snd (clear_all t)) = [] /\
    (List.length t = 5%nat -> fst (clear_all t) = 5%Z).
Proof.
  intros now t. repeat split.
  intros H. simpl. rewrite H. reflexivity.
Qed.

Lemma cache_clear_all_count_witness :
  fst (clear_all [mkRow "a.com" [] 1; mkRow "b.com" [] 2; mkRow "c.com" [] 3;
                  mkRow "d.com" [] 4; mkRow "e.com" [] 5]) = 5%Z.
Proof.
  apply (proj2 (proj2 (proj2 (cache_clear_all_count (inject_Z 0) _)))).
  reflexivity.
Defined.

(** ** The builtin wordlist loader *)
Import Cli.

(** C8 fails, through a defect of the loader: a packaged file holding the
    single byte 0xFF is not valid JSON, yet [f.read()] raises
    UnicodeDecodeError before [json.loads] sees any text, and neither
    [except] clause ([FileNotFoundError], [json.JSONDecodeError]) catches it:
    the exception escapes the loader, whatever [json.loads] would do. *)
Theorem load_builtin_undecodable :
  forall json_loads : list Z -> res json,
    load_builtin_params json_loads (FsFile [255%Z]) = ([], Raise UnicodeDecodeError).
Proof. intros json_loads. reflexivity. Qed.

(** ** The parameter extractor *)
Import Parser.

Lemma before_eq_value (name value : list ascii) :
  (forall c, In c name -> c <> "="%char) ->
  before_eq (name ++ "="%char :: value) = name.
Proof.
  induction name as [|c name IH]; intros Hname; simpl; [reflexivity|].
  destruct (Ascii.eqb c "=") eqn:E.
  - apply Ascii.eqb_eq in E. exfalso. apply (Hname c); [left; reflexivity|exact E].
  - f_equal. apply IH. intros c' Hc'. apply Hname. right. exact Hc'.
Qed.

(** C9: the extractor returns exactly the keys of the non-empty pieces of
    the query, so repeated keys collapse; the part after '=' does not enter
    the key; [extract("https://x.com/path?a=1&b=2&a=3") = {a, b}]; a URL
    without a query gives the empty set. *)
Theorem extract_params_keys :
  extract_params_from_url "https://x.com/path?a=1&b=2&a=3" = {[ "a"%string; "b"%string ]} /\
  (forall url : string, query_of url = None -> extract_params_from_url url = ∅) /\
  (forall (url k : string),
     k ∈ extract_params_from_url url <->
     exists piece, In piece (query_pieces url) /\ key_of piece = k) /\
  (forall name value : list ascii,
     (forall c, In c name -> c <> "="%char) ->
     key_of (name ++ "="%char :: value) = key_of name).
Proof.
  split; [vm_compute; reflexivity|]. split; [|split].
  - intros url H. unfold extract_params_from_url, query_pieces. rewrite H. reflexivity.
  - intros url k. unfold extract_params_from_url.
    induction (query_pieces url) as [|p ps IH]; simpl.
    + split; [set_solver|]. intros (piece & [] & _).
    + rewrite elem_of_union, elem_of_singleton, IH. split.
      * intros [->|(piece & Hin & Hk)]; [exists p; auto|exists piece; auto].
      * intros (piece & [<-|Hin] & Hk); [left; auto|right; exists piece; auto].
  - intros name value Hname. unfold key_of. rewrite before_eq_value by exact Hname.
    f_equal. f_equal.
    induction name as [|c name IH]; simpl; [reflexivity|].
    destruct (Ascii.eqb c "=") eqn:E.
    + apply Ascii.eqb_eq in E. exfalso. apply (Hname c); [left; reflexivity|exact E].
    + f_equal. apply IH. intros c' Hc'. apply Hname. right. exact Hc'.
Qed.

Lemma extract_params_keys_witness :
  extract_params_from_url "https://x.com/path" = ∅ /\
  key_of ["i"; "d"]%char = key_of (["i"; "d"] ++ "="%char :: ["7"])%char.
Proof.
  split.
  - apply (proj1 (proj2 extract_params_keys)). reflexivity.
  - symmetry. apply (proj2 (proj2 (proj2 extract_params_keys))).
    intros c [<-|[<-|[]]]; discriminate.
Defined.

(** ** The scan command *)

Lemma get_row_fresh (now : clock) (t : table) (d : string) (L : list string) (T : Z) :
  table_wf t -> In (mkRow d L T) t -> fresh now T = true -> get now d t = (Some L, t).
Proof.
  intros Hwf Hin Hf. pose proof (select_one_wf t _ Hwf Hin) as Hsel. simpl in Hsel.
  unfold get. rewrite Hsel. simpl. rewrite Hf. reflexivity.
Qed.

Lemma get_no_fresh (now : clock) (t : table) (d : string) :
  (forall r, In r t -> row_domain r = d -> fresh now (row_timestamp r) = false) ->
  fst (get now d t) = None.
Proof.
  intros H. unfold get. destruct (select_one d t) as [r|] eqn:E; [|reflexivity].
  apply select_one_some in E as [Hin Hd]. rewrite (H r Hin Hd). reflexivity.
Qed.

Lemma output_results_no_fetch (d d' : string) (output : option string)
    (final : list string) :
  ~ In (EvFetch d') (output_results d output final).
Proof.
  unfold output_results. destruct final as [|p ps]; simpl; [intuition discriminate|].
  destruct (bool_decide (output = Some "json"%string)); simpl; [intuition discriminate|].
  intros [H|[H|H]]; [discriminate|discriminate|].
  apply in_map_iff in H as (x & Hx & _). discriminate.
Qed.

Lemma scan_init_unfold (json_loads : list Z -> res json) (extract : string -> gset string)
    (merge : list string -> json -> res (list string)) (domain : string)
    (output : option string) (now_get now_set : clock) (net : http_outcome)
    (fs : fs_entry) (t : table) :
  scan json_loads extract merge domain output now_get now_set net fs (Some t) =
  let d := normalize domain in
  let '(cached_params, t1) := get now_get d t in
  match cached_params with
  | Some ((_ :: _) as final_params) =>
      (output_results d output final_params, ScanReturned, Some t1)
  | _ =>
      let evs := [EvScanning d; EvFetch d] in
      let urls := fetch_wayback_urls d net in
      if bool_decide (urls = ∅) then (evs ++ [EvNoURLs d], ScanExit 1, Some t1)
      else
        let evs := evs ++ [EvFound (size urls)] in
        let extracted_set := set_fold (fun u acc => extract u ∪ acc) ∅ urls in
        let '(evs_b, builtin) := load_builtin_params json_loads fs in
        let evs := evs ++ evs_b in
        match builtin with
        | Raise e => (evs, ScanRaised e, Some t1)
        | Ok builtin_params =>
            match merge (elements extracted_set) builtin_params with
            | Raise e => (evs, ScanRaised e, Some t1)
            | Ok final_params =>
                (evs ++ output_results d output final_params, ScanReturned,
                 Some (set now_set d final_params t1))
            end
        end
  end.
Proof.
  unfold scan, m_get, m_set, method. cbv zeta.
  destruct (get now_get (normalize domain) t) as [cached t1].
  destruct cached as [[|p ps]|]; try reflexivity.
  all: destruct (bool_decide _); [reflexivity|].
  all: destruct (load_builtin_params json_loads fs) as [evs_b [bl|e]]; [|reflexivity].
  all: destruct (merge _ bl); reflexivity.
Qed.

Section ScanFacts.
Variables (json_loads : list Z -> res json) (extract : string -> gset string)
          (merge : list string -> json -> res (list string)).

(** On an object whose [_init_] has run, the archive is queried exactly when
    [get] gave [None] or an empty list. *)
Lemma scan_fetches_iff (domain : string) (output : option string)
    (now_get now_set : clock) (net : http_outcome) (fs : fs_entry) (t : table) :
  In (EvFetch (normalize domain))
     (fst (fst (scan json_loads extract merge domain output now_get now_set net fs (Some t))))
  <-> match fst (get now_get (normalize domain) t) with
      | Some (_ :: _) => False
      | _ => True
      end.
Proof.
  rewrite scan_init_unfold. cbv zeta.
  destruct (get now_get (normalize domain) t) as [cached t1].
  simpl fst at 2.
  destruct cached as [[|p ps]|].
  2: { cbn [fst]. split; [|contradiction]. apply output_results_no_fetch. }
  all: split; [intros _; exact I|intros _].
  all: destruct (bool_decide (fetch_wayback_urls (normalize domain) net = ∅));
       [simpl; auto|].
  all: destruct (load_builtin_params json_loads fs) as [evs_b [bl|e]];
       [|simpl; tauto].
  all: destruct (merge _ bl) as [final|e]; simpl; tauto.
Qed.

(** What C5 describes is what [scan] does on an object whose [_init_] has
    run: with no fresh row for the normalised domain and no URL from the
    archive, it prints "No URLs found" and ends through
    [typer.Exit(code=1)]. *)
Lemma scan_no_urls_exits_initialised (domain : string) (output : option string)
    (now_get now_set : clock) (net : http_outcome) (fs : fs_entry) (t : table) :
  (forall r, In r t -> row_domain r = normalize domain ->
             (inject_Z CACHE_TTL <= now_get - inject_Z (row_timestamp r))%Q) ->
  fetch_wayback_urls (normalize domain) net = ∅ ->
  exists evs t',
    scan json_loads extract merge domain output now_get now_set net fs (Some t)
      = (evs, ScanExit 1, Some t') /\
    In (EvNoURLs (normalize domain)) evs.
Proof.
  intros Hstale Hnone.
  assert (Hg : fst (get now_get (normalize domain) t) = None).
  { apply get_no_fresh. intros r Hin Hd. apply not_fresh_iff. exact (Hstale r Hin Hd). }
  rewrite scan_init_unfold. cbv zeta.
  destruct (get now_get (normalize domain) t) as [cached t1].
  simpl in Hg. subst cached.
  rewrite (bool_decide_eq_true_2 _ Hnone).
  eexists _, _. split; [reflexivity|]. simpl; tauto.
Qed.

(** What C10 describes is what [scan] does on an object whose [_init_] has
    run: a fresh empty list is a miss, a fresh non-empty list is used. *)
Lemma scan_empty_cache_refetches_initialised (domain : string) (output : option string)
    (now_get now_set : clock) (net : http_outcome) (fs : fs_entry) (t : table) :
  table_wf t ->
  (forall T : Z,
     In (mkRow (normalize domain) [] T) t ->
     (now_get - inject_Z T < inject_Z CACHE_TTL)%Q ->
     In (EvFetch (normalize domain))
        (fst (fst (scan json_loads extract merge domain output now_get now_set net fs
                        (Some t))))) /\
  (forall (L : list string) (T : Z),
     L <> [] ->
     In (mkRow (normalize domain) L T) t ->
     (now_get - inject_Z T < inject_Z CACHE_TTL)%Q ->
     ~ In (EvFetch (normalize domain))
          (fst (fst (scan json_loads extract merge domain output now_get now_set net fs
                          (Some t))))).
Proof.
  intros Hwf. split.
  - intros T Hin Hfresh. apply scan_fetches_iff.
    apply fresh_iff in Hfresh.
    rewrite (get_row_fresh now_get t _ _ _ Hwf Hin Hfresh). exact I.
  - intros L T HL Hin Hfresh. rewrite scan_fetches_iff.
    apply fresh_iff in Hfresh.
    rewrite (get_row_fresh now_get t _ _ _ Hwf Hin Hfresh).
    destruct L; [contradiction|]. auto.
Qed.

End ScanFacts.



(** * Further properties of the code *)

(** ** The archive fetch: which URLs are kept *)

Lemma endswith_refl (s : string) : Py.endswith s s = true.
Proof.
  unfold Py.endswith. rewrite Nat.leb_refl, Nat.sub_diag. simpl.
  assert (Hsub : substring 0 (String.length s) s = s).
  { induction s as [|c s IH]; simpl; [reflexivity|]. rewrite IH. reflexivity. }
  rewrite Hsub. apply String.eqb_refl.
Qed.

Lemma row_netloc_ok (url : json) (u n : string) :
  row_netloc url = Ok (u, n) -> UrlParse.netloc u = Ok n.
Proof.
  destruct url as [| | |s| |]; simpl; intros H; repeat case_match; try discriminate H.
  inversion H; subst; assumption.
Qed.

Lemma process_rows_hosts (domain : string) (rows : list json) (urls : gset string)
    (u : string) :
  u ∈ fst (process_rows domain rows urls) ->
  u ∈ urls \/ exists n, UrlParse.netloc u = Ok n /\ Py.endswith n domain = true.
Proof.
  revert urls; induction rows as [|row rows IH]; intros urls; simpl; [auto|].
  destruct (py_index0 row) as [url|e]; simpl; [|auto].
  destruct (row_netloc url) as [[u' n]|e] eqn:Hrow; simpl; [|auto].
  intros Hin. destruct (IH _ Hin) as [Hu|Hh]; [|auto].
  destruct (host_check domain n) eqn:Hc; [|auto].
  apply elem_of_union in Hu as [Hu|Hu]; [|auto].
  apply elem_of_singleton in Hu; subst u'. right. exists n.
  split; [exact (row_netloc_ok _ _ _ Hrow)|].
  unfold host_check in Hc. apply orb_true_iff in Hc as [Hc|Hc]; [exact Hc|].
  apply String.eqb_eq in Hc; subst n. apply endswith_refl.
Qed.

Lemma fetch_wayback_urls_body (domain : string) (o : http_outcome) :
  fetch_wayback_urls domain o = fst (fetch_body domain o).
Proof.
  unfold fetch_wayback_urls, fetch_wayback_urls_logged.
  destruct (fetch_body domain o); reflexivity.
Qed.

Lemma fetch_body_cases (domain : string) (o : http_outcome) :
  fst (fetch_body domain o) = ∅ \/
  exists rows, fetch_body domain o = process_rows domain rows ∅.
Proof.
  unfold fetch_body. repeat case_match; simpl; eauto.
Qed.

(** X1: what the host test of line 55 does guarantee: every URL in the result
    parses, and its netloc (host with any user info and port) ends with the
    domain string. *)
Theorem fetch_result_netloc_suffix :
  forall (domain : string) (o : http_outcome) (u : string),
    u ∈ fetch_wayback_urls domain o ->
    exists n, UrlParse.netloc u = Ok n /\ Py.endswith n domain = true.
Proof.
  intros domain o u Hu. rewrite fetch_wayback_urls_body in Hu.
  destruct (fetch_body_cases domain o) as [He|[rows Hr]].
  - rewrite He in Hu. set_solver.
  - rewrite Hr in Hu. destruct (process_rows_hosts _ _ _ _ Hu) as [H|H]; [set_solver|exact H].
Qed.

Lemma fetch_result_netloc_suffix_witness :
  exists n, UrlParse.netloc "https://api.example.com/v1?id=2" = Ok n /\
            Py.endswith n "example.com" = true.
Proof.
  apply (fetch_result_netloc_suffix "example.com"
           (HResponse 200 (Some (JArr [JArr [JStr "original"];
                                       JArr [JStr "https://api.example.com/v1?id=2"]])))).
  apply (bool_decide_unpack _ (dec := elem_of_dec_slow _ _)). vm_compute. exact I.
Defined.

(** X2: the first element of the response (the CDX header) is never looked at;
    and a 2xx response whose JSON value is falsy or has at most one element
    gives the empty set with no diagnostic printed. *)
Theorem fetch_header_and_short_response :
  (forall (domain : string) (status : Z) (h h' : json) (rows : list json),
     fetch_wayback_urls_logged domain (HResponse status (Some (JArr (h :: rows))))
     = fetch_wayback_urls_logged domain (HResponse status (Some (JArr (h' :: rows))))) /\
  (forall (domain : string) (status : Z) (data : json),
     (200 <= status < 300)%Z ->
     (py_falsy data = true \/ exists n, py_len data = Ok n /\ (n <= 1)%nat) ->
     fetch_wayback_urls_logged domain (HResponse status (Some data)) = (None, ∅)).
Proof.
  split.
  - intros. reflexivity.
  - intros domain status data Hs Hd.
    unfold fetch_wayback_urls_logged, fetch_body.
    destruct (200 <=? status)%Z eqn:E1; [|apply Z.leb_gt in E1; lia].
    destruct (status <? 300)%Z eqn:E2; [|apply Z.ltb_ge in E2; lia].
    simpl. destruct (py_falsy data) eqn:Ef; [reflexivity|].
    destruct Hd as [Hd|(n & Hn & Hle)]; [discriminate|].
    rewrite Hn. apply Nat.leb_le in Hle. rewrite Hle. reflexivity.
Qed.

Lemma fetch_header_and_short_response_witness :
  fetch_wayback_urls_logged "example.com"
    (HResponse 200 (Some (JArr [JArr [JStr "https://example.com/skipped"]])))
  = (None, ∅).
Proof.
  apply (proj2 fetch_header_and_short_response); [lia|].
  right. exists 1%nat. split; [reflexivity|lia].
Defined.

(** ** [urlsplit]: the netloc of a URL with an authority *)

Lemma filter_all_true {A : Type} (p : A -> bool) (l : list A) :
  forallb p l = true -> List.filter p l = l.
Proof.
  induction l as [|a l IH]; simpl; [reflexivity|].
  intros H. apply andb_true_iff in H as [Ha Hl]. rewrite Ha, IH by exact Hl. reflexivity.
Qed.

Lemma find_char_cons (c d : ascii) (l : list ascii) :
  UrlParse.find_char c (d :: l) =
  if Ascii.eqb c d then Some 0%nat else option_map S (UrlParse.find_char c l).
Proof. reflexivity. Qed.

Lemma find_colon_scheme (scheme rest : list ascii) :
  forallb UrlParse.is_scheme_char scheme = true ->
  UrlParse.find_char ":"%char (scheme ++ ":"%char :: rest) = Some (List.length scheme).
Proof.
  induction scheme as [|c scheme IH]; [reflexivity|].
  intros H. change ((c :: scheme) ++ ":"%char :: rest) with (c :: (scheme ++ ":"%char :: rest)).
  rewrite find_char_cons.
  apply andb_true_iff in H as [Hc Hs].
  destruct (Ascii.eqb ":" c) eqn:E.
  - apply Ascii.eqb_eq in E. subst c. discriminate Hc.
  - rewrite IH by exact Hs. reflexivity.
Qed.

Lemma firstn_app_length {A : Type} (l r : list A) : firstn (List.length l) (l ++ r) = l.
Proof. induction l as [|a l IH]; simpl; [reflexivity|]. rewrite IH. reflexivity. Qed.

Lemma skipn_app_length {A : Type} (l : list A) (x : A) (r : list A) :
  skipn (S (List.length l)) (l ++ x :: r) = r.
Proof. induction l as [|a l IH]; simpl; [reflexivity|]. exact IH. Qed.

Lemma in_chars_delims (c : ascii) :
  Py.in_chars c "/?#" = true -> Py.in_chars c "/?#[]" = true.
Proof.
  destruct c as [[] [] [] [] [] [] [] []]; vm_compute; auto.
Qed.

Lemma take_netloc_cons (c : ascii) (l : list ascii) :
  UrlParse.take_netloc (c :: l) =
  if Py.in_chars c "/?#" then [] else c :: UrlParse.take_netloc l.
Proof. reflexivity. Qed.

Lemma take_netloc_host (host rest : list ascii) :
  forallb (fun ch => negb (Py.in_chars ch "/?#[]")) host = true ->
  (rest = [] \/ exists d r, rest = d :: r /\ Py.in_chars d "/?#" = true) ->
  UrlParse.take_netloc (host ++ rest) = host.
Proof.
  intros Hh Hr. induction host as [|c host IH].
  - destruct Hr as [->|(d & r & -> & Hd)]; [reflexivity|].
    simpl app. rewrite take_netloc_cons, Hd. reflexivity.
  - change ((c :: host) ++ rest) with (c :: (host ++ rest)).
    rewrite take_netloc_cons.
    change (forallb _ (c :: host)) with
      (negb (Py.in_chars c "/?#[]") && forallb (fun ch => negb (Py.in_chars ch "/?#[]")) host) in Hh.
    apply andb_true_iff in Hh as [Hc Hh].
    destruct (Py.in_chars c "/?#") eqn:E.
    + apply in_chars_delims in E. rewrite E in Hc. discriminate.
    + rewrite IH by exact Hh. reflexivity.
Qed.

Lemma no_bracket (b : ascii) (host : list ascii) :
  (b = "["%char \/ b = "]"%char) ->
  forallb (fun ch => negb (Py.in_chars ch "/?#[]")) host = true ->
  existsb (fun c => Ascii.eqb c b) host = false.
Proof.
  intros Hb. induction host as [|c host IH]; [reflexivity|].
  intros H.
  change (forallb _ (c :: host)) with
    (negb (Py.in_chars c "/?#[]") && forallb (fun ch => negb (Py.in_chars ch "/?#[]")) host) in H.
  apply andb_true_iff in H as [Hc Hh].
  change (existsb _ (c :: host)) with (Ascii.eqb c b || existsb (fun c => Ascii.eqb c b) host).
  rewrite IH by exact Hh.
  destruct (Ascii.eqb c b) eqn:E; [|reflexivity].
  apply Ascii.eqb_eq in E. subst c.
  destruct Hb as [-> | ->]; discriminate Hc.
Qed.

Lemma alpha_not_c0 (c : ascii) : Py.is_alpha c = true -> UrlParse.is_c0_or_space c = false.
Proof.
  unfold Py.is_alpha, UrlParse.is_c0_or_space. intros H.
  apply Nat.leb_gt.
  destruct (Nat.leb_spec 65 (nat_of_ascii c)); [lia|].
  destruct (Nat.leb_spec 97 (nat_of_ascii c)); [lia|].
  discriminate H.
Qed.

Lemma split_scheme_ok (c : ascii) (cs r : list ascii) :
  Py.is_alpha c = true ->
  forallb UrlParse.is_scheme_char (c :: cs) = true ->
  UrlParse.split_scheme ((c :: cs) ++ ":"%char :: r) = r.
Proof.
  intros Hc Hs. unfold UrlParse.split_scheme.
  rewrite (find_colon_scheme (c :: cs)) by exact Hs.
  change (List.length (c :: cs)) with (S (List.length cs)).
  change ((c :: cs) ++ ?t) with (c :: (cs ++ t)).
  cbv iota beta.
  change (firstn (S (List.length cs)) (c :: ?t)) with (c :: firstn (List.length cs) t).
  change (skipn (S (S (List.length cs))) (c :: ?t)) with (skipn (S (List.length cs)) t).
  rewrite firstn_app_length, skipn_app_length, Hc, Hs. reflexivity.
Qed.

(** X3: for [scheme://host...] with a well-formed scheme (a letter followed by
    letters, digits, '+', '-' or '.'), a host free of '/', '?', '#', '[' and
    ']', followed by nothing or by a '/', '?' or '#', and no tab or newline in
    the URL, [urlsplit(url).netloc] is exactly [host]: the string the fetcher
    compares with the domain. *)
Theorem urlsplit_netloc_authority :
  forall (c : ascii) (cs host rest : list ascii),
    Py.is_alpha c = true ->
    forallb UrlParse.is_scheme_char (c :: cs) = true ->
    forallb (fun ch => negb (Py.in_chars ch "/?#[]")) host = true ->
    (rest = [] \/ exists d r, rest = d :: r /\ Py.in_chars d "/?#" = true) ->
    forallb (fun ch => negb (UrlParse.is_unsafe ch))
      ((c :: cs) ++ ":"%char :: "/"%char :: "/"%char :: host ++ rest) = true ->
    UrlParse.netloc
      (Py.of_chars ((c :: cs) ++ ":"%char :: "/"%char :: "/"%char :: host ++ rest))
    = Ok (Py.of_chars host).
Proof.
  intros c cs host rest Hc Hs Hh Hr Hsafe.
  unfold UrlParse.netloc, Py.chars, Py.of_chars.
  rewrite list_ascii_of_string_of_list_ascii.
  change ((c :: cs) ++ ?t) with (c :: (cs ++ t)).
  change (Py.drop_while UrlParse.is_c0_or_space (c :: ?t)) with
    (if UrlParse.is_c0_or_space c then Py.drop_while UrlParse.is_c0_or_space t else c :: t).
  rewrite (alpha_not_c0 c Hc).
  change (c :: (cs ++ ?t)) with ((c :: cs) ++ t).
  rewrite (filter_all_true _ _ Hsafe).
  rewrite (split_scheme_ok c cs) by assumption.
  rewrite (take_netloc_host host rest Hh Hr).
  rewrite (no_bracket "[" host), (no_bracket "]" host); auto.
Qed.

Lemma urlsplit_netloc_authority_witness :
  UrlParse.netloc "https://shop.example.com:8443/cart?id=1"
  = Ok "shop.example.com:8443"%string.
Proof.
  apply (urlsplit_netloc_authority "h"%char
           (Py.chars "ttps") (Py.chars "shop.example.com:8443") (Py.chars "/cart?id=1"));
    try reflexivity.
  right. exists "/"%char, (Py.chars "cart?id=1"). split; reflexivity.
Defined.

(** ** [retry_on_failure]: shape of the trace *)

Lemma retry_loop_shape {T : Type} (max_retries delay : Z) (exceptions : exn -> bool)
    (func : Z -> res T) (m s : nat) :
  Z.of_nat (s + m) = max_retries ->
  let '(tr, r) := retry_loop max_retries delay exceptions func (map Z.of_nat (seq s m)) in
  (calls tr <= m)%nat /\
  (forall ev, In ev tr -> is_sleep ev = true -> ev = Sleep delay) /\
  sleeps tr = (calls tr - 1)%nat /\
  (r = ReturnedNone <-> m = 0%nat) /\
  (m <> 0%nat -> 1 <= calls tr)%nat.
Proof.
  revert s; induction m as [|m IH]; intros s Hm.
  - simpl. unfold calls, sleeps. simpl. intuition.
  - cbn [seq map retry_loop].
    destruct (func (Z.of_nat s)) as [v|e].
    + unfold calls, sleeps; simpl. split; [lia|]. split.
      { intros ev [<-|[]] H; discriminate H. }
      split; [reflexivity|]. split; [split; [discriminate|lia]|lia].
    + destruct (exceptions e).
      * destruct (Z.of_nat s <? max_retries - 1)%Z eqn:Hlt.
        -- apply Z.ltb_lt in Hlt.
           specialize (IH (S s) ltac:(lia)).
           destruct (retry_loop _ _ _ _ (map Z.of_nat (seq (S s) m))) as [tr r].
           destruct IH as (Hc & Hsl & Hsc & Hnone & Hpos).
           assert (Hm0 : m <> 0%nat) by lia.
           specialize (Hpos Hm0).
           unfold calls, sleeps in *; simpl.
           split; [lia|]. split.
           { intros ev [<-|[<-|[<-|Hin]]] H; try discriminate H; [reflexivity|].
             exact (Hsl ev Hin H). }
           split; [lia|]. split; [|lia].
           split; [intros Hr; apply Hnone in Hr; lia|discriminate].
        -- unfold calls, sleeps; simpl. split; [lia|]. split.
           { intros ev [<-|[<-|[]]] H; discriminate H. }
           split; [reflexivity|]. split; [split; [discriminate|lia]|lia].
      * unfold calls, sleeps; simpl. split; [lia|]. split.
        { intros ev [<-|[]] H; discriminate H. }
        split; [reflexivity|]. split; [split; [discriminate|lia]|lia].
Qed.

(** X4: [retry_on_failure] with a non-positive [max_retries] never calls the
    wrapped function and returns [None] (line 31); with a positive one it
    never returns [None]: it returns a value of the function or raises. *)
Theorem retry_returns_none_iff {T : Type} (max_retries delay : Z)
    (exceptions : exn -> bool) (func : Z -> res T) :
  ((max_retries <= 0)%Z ->
   wrapper max_retries delay exceptions func = ([], ReturnedNone)) /\
  (snd (wrapper max_retries delay exceptions func) = ReturnedNone <->
   (max_retries <= 0)%Z).
Proof.
  split.
  - intros Hn. unfold wrapper, py_range.
    replace (Z.to_nat max_retries) with 0%nat by lia. reflexivity.
  - destruct (Z_le_gt_dec max_retries 0) as [Hn|Hp].
    + unfold wrapper, py_range.
      replace (Z.to_nat max_retries) with 0%nat by lia. simpl. tauto.
    + pose proof (retry_loop_shape max_retries delay exceptions func
                    (Z.to_nat max_retries) 0 ltac:(lia)) as H.
      unfold wrapper, py_range.
      destruct (retry_loop _ _ _ _ _) as [tr r]. simpl.
      destruct H as (_ & _ & _ & Hnone & _).
      rewrite Hnone. lia.
Qed.

Lemma retry_returns_none_iff_witness :
  wrapper 0 2 default_exceptions (fun _ => @Ok nat 1%nat) = ([], ReturnedNone) /\
  (snd (wrapper 0 2 default_exceptions (fun _ => @Ok nat 1%nat)) = ReturnedNone <->
   (0 <= 0)%Z).
Proof.
  pose proof (retry_returns_none_iff 0 2 default_exceptions (fun _ => @Ok nat 1%nat)) as [H1 H2].
  split; [apply H1; lia|exact H2].
Defined.

Lemma retry_loop_trace {T : Type} (max_retries delay : Z) (exceptions : exn -> bool)
    (func : Z -> res T) (m s : nat) :
  Z.of_nat (s + m) = max_retries ->
  let '(tr, _) := retry_loop max_retries delay exceptions func (map Z.of_nat (seq s m)) in
  (m = 0%nat /\ tr = []) \/
  exists j : nat, (j < m)%nat /\
    (tr = retried_trace delay (Z.of_nat s) j ++ [Call (Z.of_nat (s + j))] \/
     (j = (m - 1)%nat /\
      tr = retried_trace delay (Z.of_nat s) j ++ [Call (Z.of_nat (s + j)); GiveUp])).
Proof.
  revert s; induction m as [|m IH]; intros s Hm.
  - left. split; reflexivity.
  - cbn [seq map retry_loop].
    destruct (func (Z.of_nat s)) as [v|e].
    + right. exists 0%nat. split; [lia|]. left. rewrite Nat.add_0_r. reflexivity.
    + destruct (exceptions e).
      * destruct (Z.of_nat s <? max_retries - 1)%Z eqn:Hlt.
        -- apply Z.ltb_lt in Hlt.
           specialize (IH (S s) ltac:(lia)).
           destruct (retry_loop _ _ _ _ (map Z.of_nat (seq (S s) m))) as [tr r].
           cbn iota beta. right.
           destruct IH as [[Hm0 _]|(j & Hj & Htr)]; [lia|].
           exists (S j). split; [lia|].
           assert (Hs : Z.of_nat (S s) = (Z.of_nat s + 1)%Z) by lia.
           assert (Hc : Z.of_nat (S s + j) = Z.of_nat (s + S j)) by (f_equal; lia).
           destruct Htr as [Htr|[Hjm Htr]].
           ++ left. rewrite Htr, Hs, Hc. reflexivity.
           ++ right. split; [lia|]. rewrite Htr, Hs, Hc. reflexivity.
        -- apply Z.ltb_ge in Hlt. right.
           exists 0%nat. split; [lia|]. right. split; [lia|].
           rewrite Nat.add_0_r. reflexivity.
      * right. exists 0%nat. split; [lia|]. left. rewrite Nat.add_0_r. reflexivity.
Qed.

(** X5: whatever the wrapped function does, the trace of [retry_on_failure]
    is empty when [max_retries <= 0]; otherwise, for some attempt [k] below
    [max_retries], it is: for each attempt [0, ..., k - 1] a call, a warning
    and a sleep of [delay] seconds; then the call of attempt [k]; then, only
    when [k] is the last attempt, the final "failed" message.  So the
    function is called at most [max_retries] times, every sleep lies between
    two consecutive calls, and there is no sleep after the last call. *)
Theorem retry_trace_shape {T : Type} (max_retries delay : Z)
    (exceptions : exn -> bool) (func : Z -> res T) :
  let '(tr, _) := wrapper max_retries delay exceptions func in
  ((max_retries <= 0)%Z /\ tr = []) \/
  exists k : nat, (Z.of_nat k < max_retries)%Z /\
    (tr = retried_trace delay 0 k ++ [Call (Z.of_nat k)] \/
     (Z.of_nat k = (max_retries - 1)%Z /\
      tr = retried_trace delay 0 k ++ [Call (Z.of_nat k); GiveUp])).
Proof.
  unfold wrapper, py_range.
  destruct (Z_le_gt_dec max_retries 0) as [Hn|Hp].
  - replace (Z.to_nat max_retries) with 0%nat by lia. simpl. left. split; [exact Hn|reflexivity].
  - pose proof (retry_loop_trace max_retries delay exceptions func
                  (Z.to_nat max_retries) 0 ltac:(lia)) as H.
    destruct (retry_loop _ _ _ _ _) as [tr r].
    destruct H as [[Hm _]|(j & Hj & Htr)]; [lia|].
    right. exists j. split; [lia|].
    destruct Htr as [Htr|[Hjm Htr]]; [left; exact Htr|right; split; [lia|exact Htr]].
Qed.

Lemma retry_trace_shape_witness :
  let '(tr, _) := wrapper 3 2 default_exceptions (fun _ => @Raise nat ConnectError) in
  ((3 <= 0)%Z /\ tr = []) \/
  exists k : nat, (Z.of_nat k < 3)%Z /\
    (tr = retried_trace 2 0 k ++ [Call (Z.of_nat k)] \/
     (Z.of_nat k = (3 - 1)%Z /\
      tr = retried_trace 2 0 k ++ [Call (Z.of_nat k); GiveUp])).
Proof. exact (retry_trace_shape 3 2 default_exceptions (fun _ => @Raise nat ConnectError)). Defined.

(** ** [ParamCache._time_remaining] and [get_status] *)

Section CacheTime.
Local Open Scope Q_scope.

Lemma floor_div_bounds (q : Q) (c : Z) :
  (0 < c)%Z ->
  inject_Z (Qfloor (q / inject_Z c)) * inject_Z c <= q /\
  q < (inject_Z (Qfloor (q / inject_Z c)) + 1) * inject_Z c.
Proof.
  intros Hc.
  assert (Hc' : inject_Z 0 < inject_Z c) by (rewrite <- Zlt_Qlt; exact Hc).
  change (inject_Z 0) with 0 in Hc'.
  assert (Hq : q / inject_Z c * inject_Z c == q).
  { rewrite Qmult_comm. apply Qmult_div_r. intros H. rewrite H in Hc'. discriminate Hc'. }
  split.
  - rewrite <- Hq at 2. apply Qmult_le_compat_r; [apply Qfloor_le|lra].
  - rewrite <- Hq at 1. apply Qmult_lt_compat_r; [exact Hc'|].
    pose proof (Qlt_floor (q / inject_Z c)) as H.
    rewrite inject_Z_plus in H. exact H.
Qed.

Ltac qnorm :=
  rewrite ?inject_Z_plus, ?inject_Z_mult, ?inject_Z_plus;
  change (inject_Z 86400) with (86400 # 1);
  change (inject_Z 3600) with (3600 # 1);
  change (inject_Z 1) with 1.

(** X6: the string [_time_remaining(timestamp)] shows is the whole number of
    days and hours left before the row expires: with [rem] the remaining
    seconds [(timestamp + CACHE_TTL) - time.time()], "Expired" means
    [rem <= 0]; "d days, h hours" means [d >= 1], [0 <= h <= 23] and
    [d * 86400 + h * 3600 <= rem < d * 86400 + (h + 1) * 3600]; "h hours"
    means [1 <= h <= 23] and [h * 3600 <= rem < (h + 1) * 3600]; "Less than
    1 hour" means [0 < rem < 3600]. *)
Theorem time_remaining_decomposition (now : clock) (ts : Z) :
  let rem := (inject_Z (ts + CACHE_TTL) - now)%Q in
  match time_remaining now ts with
  | Expired => rem <= 0
  | DaysHours d h =>
      (1 <= d)%Z /\ (0 <= h <= 23)%Z /\
      inject_Z (d * 86400 + h * 3600) <= rem < inject_Z (d * 86400 + (h + 1) * 3600)
  | Hours h =>
      (1 <= h <= 23)%Z /\ inject_Z (h * 3600) <= rem < inject_Z ((h + 1) * 3600)
  | LessThanOneHour => 0 < rem < inject_Z 3600
  end.
Proof.
  intros rem. unfold time_remaining. fold rem.
  destruct (Qle_bool rem 0) eqn:E.
  { apply Qle_bool_iff in E. exact E. }
  assert (Hpos : 0 < rem).
  { apply Qnot_le_lt. intros H. apply Qle_bool_iff in H. congruence. }
  cbv zeta.
  destruct (floor_div_bounds rem (24 * 3600) ltac:(lia)) as [Hd1 Hd2].
  set (days := Qfloor (rem / inject_Z (24 * 3600))) in *.
  destruct (floor_div_bounds (rem - inject_Z (days * (24 * 3600))) 3600 ltac:(lia)) as [Hh1 Hh2].
  set (hours := Qfloor ((rem - inject_Z (days * (24 * 3600))) / inject_Z 3600)) in *.
  rewrite inject_Z_mult in Hh1, Hh2.
  change (inject_Z (24 * 3600)) with (86400 # 1) in *.
  change (inject_Z 3600) with (3600 # 1) in *.
  assert (Hdays0 : (0 <= days)%Z).
  { assert (H : -1 < inject_Z days) by lra.
    change (-1) with (inject_Z (-1)) in H. rewrite <- Zlt_Qlt in H. lia. }
  assert (Hh0 : (0 <= hours)%Z).
  { assert (H : -1 < inject_Z hours) by lra.
    change (-1) with (inject_Z (-1)) in H. rewrite <- Zlt_Qlt in H. lia. }
  assert (Hh23 : (hours <= 23)%Z).
  { assert (H : inject_Z hours < 24) by lra.
    change 24 with (inject_Z 24) in H. rewrite <- Zlt_Qlt in H. lia. }
  destruct (0 <? days)%Z eqn:Ed.
  - apply Z.ltb_lt in Ed. split; [lia|]. split; [lia|]. qnorm. split; lra.
  - apply Z.ltb_ge in Ed. assert (Hd : days = 0%Z) by lia.
    rewrite Hd in *. change (inject_Z 0) with 0 in *.
    destruct (0 <? hours)%Z eqn:Eh.
    + apply Z.ltb_lt in Eh. split; [lia|]. qnorm. split; lra.
    + apply Z.ltb_ge in Eh. assert (Hz : hours = 0%Z) by lia.
      rewrite Hz in *. change (inject_Z 0) with 0 in *.
      change (inject_Z 3600) with (3600 # 1). split; lra.
Qed.

Lemma expired_iff_not_fresh (now : clock) (ts : Z) :
  time_remaining now ts = Expired <-> fresh now ts = false.
Proof.
  rewrite not_fresh_iff. unfold time_remaining.
  destruct (Qle_bool (inject_Z (ts + CACHE_TTL) - now) 0) eqn:E.
  - apply Qle_bool_iff in E. rewrite inject_Z_plus in E. split; [intros _; lra|reflexivity].
  - split; [intros H; repeat case_match; discriminate H|].
    intros H. exfalso.
    assert (H' : inject_Z (ts + CACHE_TTL) - now <= 0) by (rewrite inject_Z_plus; lra).
    apply Qle_bool_iff in H'. congruence.
Qed.

(** X7: [get_status] reports "Expired" for a row exactly when [get] on the same
    domain at the same time treats the row as expired (and deletes it):
    the status listing and the cache lookup agree. *)
Theorem status_expired_iff_get_none (now : clock) (t : table) (it : status_item) :
  table_wf t -> In it (get_status now t) ->
  (st_expires_in it = Expired <-> fst (get now (st_domain it) t) = None).
Proof.
  intros Hwf Hin. unfold get_status in Hin.
  apply in_map_iff in Hin as (r & <- & Hr). simpl.
  rewrite expired_iff_not_fresh.
  unfold get. rewrite (select_one_wf t r Hwf Hr).
  destruct (fresh now (row_timestamp r)); simpl; split; congruence.
Qed.

Lemma status_expired_iff_get_none_witness :
  let t := [mkRow "a.com" ["id"] 100; mkRow "b.com" [] 0] in
  let now := inject_Z (CACHE_TTL + 50) in
  (st_expires_in (mkStatus "a.com" 100 (time_remaining now 100)) = Expired <->
   fst (get now "a.com" t) = None) /\
  (st_expires_in (mkStatus "b.com" 0 (time_remaining now 0)) = Expired <->
   fst (get now "b.com" t) = None).
Proof.
  intros t now.
  assert (Hwf : table_wf t)
    by (unfold table_wf; simpl; apply (bool_decide_unpack _); vm_compute; exact I).
  split.
  - apply (status_expired_iff_get_none now t
             (mkStatus "a.com" 100 (time_remaining now 100)) Hwf).
    left. reflexivity.
  - apply (status_expired_iff_get_none now t
             (mkStatus "b.com" 0 (time_remaining now 0)) Hwf).
    right. left. reflexivity.
Defined.

(** ** Isolation of the domains in the cache *)

Lemma find_app {A : Type} (p : A -> bool) (l1 l2 : list A) :
  List.find p (l1 ++ l2) =
  match List.find p l1 with Some x => Some x | None => List.find p l2 end.
Proof.
  induction l1 as [|a l1 IH]; simpl; [reflexivity|].
  destruct (p a); [reflexivity|exact IH].
Qed.

Lemma select_one_delete_other (d d' : string) (t : table) :
  d' <> d -> select_one d' (delete d t) = select_one d' t.
Proof.
  intros Hne. unfold select_one, delete.
  induction t as [|r t IH]; simpl; [reflexivity|].
  destruct (String.eqb (row_domain r) d) eqn:E; simpl.
  - apply String.eqb_eq in E. rewrite E.
    assert (E' : String.eqb d d' = false) by (apply String.eqb_neq; congruence).
    rewrite E'. exact IH.
  - destruct (String.eqb (row_domain r) d'); [reflexivity|exact IH].
Qed.

Lemma select_one_set_other (now : clock) (d d' : string) (L : list string) (t : table) :
  d' <> d -> select_one d' (set now d L t) = select_one d' t.
Proof.
  intros Hne. unfold set. unfold select_one at 1. rewrite find_app.
  fold (select_one d' (delete d t)). rewrite select_one_delete_other by exact Hne.
  destruct (select_one d' t); [reflexivity|]. simpl.
  assert (E : String.eqb d d' = false) by (apply String.eqb_neq; congruence).
  rewrite E. reflexivity.
Qed.

Lemma get_fst_select (now : clock) (d : string) (t t' : table) :
  select_one d t' = select_one d t -> fst (get now d t') = fst (get now d t).
Proof.
  intros H. unfold get. rewrite H.
  destruct (select_one d t) as [r|]; [|reflexivity].
  destruct (fresh now (row_timestamp r)); reflexivity.
Qed.

(** X8: a cache operation on one domain never changes what [get] returns for
    another domain: after [get d] (which may delete the expired row of
    [d]), [set d params] or [delete d], [get d'] with [d' <> d] gives the
    same result as before, at any time. *)
Theorem cache_ops_isolated (now later : clock) (d d' : string) (L : list string)
    (t : table) :
  d' <> d ->
  fst (get later d' (snd (get now d t))) = fst (get later d' t) /\
  fst (get later d' (set now d L t)) = fst (get later d' t) /\
  fst (get later d' (delete d t)) = fst (get later d' t).
Proof.
  intros Hne. split; [|split].
  - apply get_fst_select. unfold get.
    destruct (select_one d t) as [r|]; [|reflexivity].
    destruct (fresh now (row_timestamp r)); [reflexivity|].
    apply select_one_delete_other, Hne.
  - apply get_fst_select, select_one_set_other, Hne.
  - apply get_fst_select, select_one_delete_other, Hne.
Qed.

Lemma cache_ops_isolated_witness :
  let t := [mkRow "a.com" ["id"] 100; mkRow "b.com" ["q"] 100] in
  fst (get 200 "b.com" (snd (get (inject_Z (CACHE_TTL + 100)) "a.com" t)))
    = fst (get 200 "b.com" t) /\
  fst (get 200 "b.com" (set (inject_Z (CACHE_TTL + 100)) "a.com" ["x"] t)) = fst (get 200 "b.com" t) /\
  fst (get 200 "b.com" (delete "a.com" t)) = fst (get 200 "b.com" t).
Proof. apply cache_ops_isolated. discriminate. Defined.

End CacheTime.

(** ** Domain normalisation in [scan] *)

Lemma lower_char_not_upper (c : ascii) : Py.is_upper (Py.lower_char c) = false.
Proof. destruct c as [[] [] [] [] [] [] [] []]; reflexivity. Qed.

Lemma lower_char_idem (c : ascii) : Py.lower_char (Py.lower_char c) = Py.lower_char c.
Proof. destruct c as [[] [] [] [] [] [] [] []]; reflexivity. Qed.

Lemma chars_of_chars (l : list ascii) : Py.chars (Py.of_chars l) = l.
Proof. apply list_ascii_of_string_of_list_ascii. Qed.

Lemma in_drop_while (p : ascii -> bool) (l : list ascii) (c : ascii) :
  In c (Py.drop_while p l) -> In c l.
Proof.
  induction l as [|a l IH]; simpl; [tauto|].
  destruct (p a); [intros H; right; exact (IH H)|tauto].
Qed.

Lemma in_strip (s : string) (c : ascii) :
  In c (Py.chars (Py.strip s)) -> In c (Py.chars s).
Proof.
  unfold Py.strip. rewrite chars_of_chars. intros H.
  apply in_rev, in_drop_while, in_rev in H. apply in_drop_while in H. exact H.
Qed.

Lemma in_skipn_l {A : Type} (n : nat) (l : list A) (x : A) : In x (skipn n l) -> In x l.
Proof.
  revert l; induction n as [|n IH]; intros l; [tauto|].
  destruct l as [|a l]; simpl; [tauto|]. intros H. right. exact (IH l H).
Qed.

Lemma in_replace_aux_nil (fuel : nat) (old l : list ascii) (c : ascii) :
  In c (Py.replace_aux fuel old [] l) -> In c l.
Proof.
  revert l; induction fuel as [|fuel IH]; intros l; simpl; [tauto|].
  destruct l as [|a r]; [tauto|].
  destruct (decide (firstn (List.length old) (a :: r) = old)).
  - simpl. intros H. apply IH in H. exact (in_skipn_l _ _ _ H).
  - intros [->|H]; [left; reflexivity|right; exact (IH r H)].
Qed.

Lemma in_replace_empty (s old : string) (c : ascii) :
  In c (Py.chars (Py.replace s old "")) -> In c (Py.chars s).
Proof. unfold Py.replace. rewrite chars_of_chars. apply in_replace_aux_nil. Qed.

Lemma lower_idem (s : string) : Py.lower (Py.lower s) = Py.lower s.
Proof.
  unfold Py.lower. rewrite chars_of_chars, map_map.
  f_equal. apply map_ext. apply lower_char_idem.
Qed.

Lemma normalize_no_upper (s : string) (c : ascii) :
  In c (Py.chars (normalize s)) -> Py.is_upper c = false.
Proof.
  unfold normalize. intros H.
  apply in_replace_empty, in_replace_empty, in_strip in H.
  unfold Py.lower in H. rewrite chars_of_chars in H.
  apply in_map_iff in H as (c' & <- & _). apply lower_char_not_upper.
Qed.

(** X9: the cache key [scan] computes from its argument contains no ASCII
    uppercase letter, and it does not depend on the case of the argument:
    [scan "Example.COM"] and [scan "example.com"] read and write the same
    cache row. *)
Theorem normalize_lowercase (s : string) :
  (forall c, In c (Py.chars (normalize s)) -> Py.is_upper c = false) /\
  normalize (Py.lower s) = normalize s.
Proof.
  split; [apply normalize_no_upper|].
  unfold normalize. rewrite lower_idem. reflexivity.
Qed.

Lemma normalize_lowercase_witness :
  Forall (fun c => Py.is_upper c = false) (Py.chars (normalize " HTTPS://Example.COM")) /\
  normalize (Py.lower " HTTPS://Example.COM") = normalize " HTTPS://Example.COM".
Proof.
  destruct (normalize_lowercase " HTTPS://Example.COM") as [H1 H2].
  split; [apply List.Forall_forall; exact H1|exact H2].
Defined.

(** ** Which rows a scan leaves in the cache *)

Lemma get_table_sub (now : clock) (d : string) (t : table) (r : row) :
  In r (snd (get now d t)) -> In r t.
Proof.
  unfold get. destruct (select_one d t) as [r'|]; [|tauto].
  destruct (fresh now (row_timestamp r')); [tauto|].
  simpl. intros H. apply in_delete in H. tauto.
Qed.

Lemma in_set (now : clock) (d : string) (L : list string) (t : table) (r : row) :
  In r (set now d L t) -> In r t \/ row_domain r = d.
Proof.
  unfold set. rewrite in_app_iff. intros [H|[<-|[]]].
  - apply in_delete in H. tauto.
  - right. reflexivity.
Qed.

Lemma select_one_delete_same (d : string) (t : table) : select_one d (delete d t) = None.
Proof. apply select_one_none. intros r Hr. apply in_delete in Hr. tauto. Qed.

Lemma get_set_fresh (now later : clock) (d : string) (L : list string) (t : table) :
  fresh later (py_int now) = true ->
  get later d (set now d L t) = (Some L, set now d L t).
Proof.
  intros Hf. unfold get.
  assert (Hs : select_one d (set now d L t) = Some (mkRow d L (py_int now))).
  { unfold set. unfold select_one at 1. rewrite find_app.
    fold (select_one d (delete d t)). rewrite select_one_delete_same.
    simpl. rewrite String.eqb_refl. reflexivity. }
  rewrite Hs. simpl. rewrite Hf. reflexivity.
Qed.

Section ScanMore.
Variables (json_loads : list Z -> res json) (extract : string -> gset string)
          (merge : list string -> json -> res (list string)).

Lemma scan_instance_rows (domain : string) (output : option string)
    (now_get now_set : clock) (net : http_outcome) (fs : fs_entry) (pc : instance)
    (t' : table) :
  snd (scan json_loads extract merge domain output now_get now_set net fs pc) = Some t' ->
  exists t, pc = Some t /\ forall r, In r t' -> In r t \/ row_domain r = normalize domain.
Proof.
  destruct pc as [t|]; [|discriminate]. intros H. exists t. split; [reflexivity|].
  rewrite scan_init_unfold in H. cbv zeta in H.
  destruct (get now_get (normalize domain) t) as [cached t1] eqn:G.
  assert (Ht1 : forall r, In r t1 -> In r t).
  { intros r Hr. apply (get_table_sub now_get (normalize domain)). rewrite G. exact Hr. }
  destruct cached as [[|p ps]|]; [| simpl in H; injection H as <-; intros r Hr; left; auto |].
  all: destruct (bool_decide (fetch_wayback_urls (normalize domain) net = ∅));
       [simpl in H; injection H as <-; intros r Hr; left; auto|].
  all: destruct (load_builtin_params json_loads fs) as [evs_b [bl|e]];
       [|simpl in H; injection H as <-; intros r Hr; left; auto].
  all: destruct (merge _ bl) as [final|e]; simpl in H; injection H as <-;
       intros r Hr; [apply in_set in Hr; destruct Hr; auto|left; auto].
Qed.

(** X10: a scan keeps the cache keyed by normalised domains: if every row of
    the table behind [param_cache] has a key produced by
    [domain.lower().strip().replace(...)], so does every row of the table the
    scan leaves, whatever the network, the wordlist file and the clock. *)
Theorem scan_keeps_normalized_keys (domain : string) (output : option string)
    (now_get now_set : clock) (net : http_outcome) (fs : fs_entry) (pc : instance) :
  (forall t, pc = Some t -> forall r, In r t -> exists s, row_domain r = normalize s) ->
  forall t', snd (scan json_loads extract merge domain output now_get now_set net fs pc)
             = Some t' ->
  forall r, In r t' -> exists s, row_domain r = normalize s.
Proof.
  intros Hpc t' Ht' r Hr.
  destruct (scan_instance_rows domain output now_get now_set net fs pc t' Ht')
    as (t & -> & Hrows).
  destruct (Hrows r Hr) as [Hin|Hd].
  - exact (Hpc t eq_refl r Hin).
  - exists domain. exact Hd.
Qed.

End ScanMore.

Lemma scan_keeps_normalized_keys_witness :
  Forall (fun r => exists s, row_domain r = normalize s)
    [mkRow "other.org" [] 100; mkRow "example.com" ["q"] 201].
Proof.
  apply List.Forall_forall.
  apply (scan_keeps_normalized_keys (fun _ => Raise JSONDecodeError) extract_params_from_url
           (fun ex _ => Ok ex) "Example.COM" None (inject_Z 200) (inject_Z 201)
           (HResponse 200 (Some (JArr [JArr [JStr "original"];
                                       JArr [JStr "https://example.com/?q=1"]])))
           FsAbsent (Some [mkRow "other.org" [] 100])).
  - intros t Ht. injection Ht as <-. intros r [<-|[]]. exists "other.org"%string. reflexivity.
  - vm_compute. reflexivity.
Defined.

(** ** The [cache status] and [cache clear] commands *)

